(** * pinata: session persistence of the chess command line (cmd/game.go)

    A shallow embedding of [cmd/game.go] and the properties of its
    load/save protocol, its outcome reporter and its move advisory.

    The chess rules (package [github.com/abperiasamy/chess]) and the console
    styling (the [gConsole] aurora value) are libraries the file calls; they
    are interfaces here, [Chess] and [Aurora].  Everything the file itself
    does (files, console lines, the globals [gHumanIsBlack], [gEngineBinary]
    and [gGame], the game records behind [*chess.Game] pointers, the clock,
    panics) is explicit in [World] and threaded by the monad [M].
    [drawBoard], which only prints the collaborator's diagram of the board,
    is left out. *)

From Stdlib Require Import ZArith Ascii String List Lia.
From stdpp Require Import base option gmap strings list fin_maps.

Open Scope Z_scope.
Open Scope string_scope.

(** ** The collaborators *)

(** [chess.TagPair] *)
Record TagPair := { Key : string; Value : string }.

(** [chess.Color] *)
Inductive Color := NoColor | White | Black.

(** The part of package [chess] that [game.go] calls, on game values.
    [Outcome] is a string type in Go with four named constants, so a value
    outside the four exists; Go refuses a [switch] with two equal constant
    cases, hence [outcomes_distinct]. *)
Class Chess := {
  Game : Type;
  PGNOption : Type;
  Outcome : Type;
  Method : Type;
  Position : Type;
  Move : Type;
  Outcome_eq_dec :: EqDecision Outcome;
  Method_eq_dec :: EqDecision Method;
  NoOutcome : Outcome;
  Draw : Outcome;
  WhiteWon : Outcome;
  BlackWon : Outcome;
  outcomes_distinct : NoDup [NoOutcome; Draw; WhiteWon; BlackWon];
  Checkmate : Method;
  Stalemate : Method;
  OutcomeString : Outcome → string;
  MethodString : Method → string;
  PGN : string → option PGNOption;
  NewGame : PGNOption → option Game;
  GameGetTagPair : Game → string → option TagPair;
  GameAddTagPair : Game → string → string → Game;
  GameOutcome : Game → Outcome;
  GameMethod : Game → Method;
  GameMoves : Game → list Move;
  GamePosition : Game → Position;
  GameString : Game → string;
  PositionValidMoves : Position → list Move;
  EncodeAlgebraic : Position → Move → string
}.

(** The styling calls on [gConsole].  A plain string argument becomes a
    value with [auValue]; [auString] is what [fmt] prints for a value. *)
Class Aurora := {
  AuValue : Type;
  auValue : string → AuValue;
  auBold : AuValue → AuValue;
  auRed : AuValue → AuValue;
  auYellow : AuValue → AuValue;
  auString : AuValue → string
}.

(** ** The world *)

(** What [time.Now()] is asked for. *)
Record Time := { Year : Z; Month : Z; Day : Z }.

(** [*os.PathError], the error of [os.Create] and [WriteString]. *)
Record error := PathError { Op : string; Path : string }.

(** ** [fmt.Sprintf] with the verbs [%d] and [%02d]

    [fmt] writes the decimal digits of the magnitude, pads them with zeros up
    to the width (one less when a sign is written) and puts the sign first. *)

Definition digit (d : Z) : ascii := ascii_of_nat (48 + Z.to_nat d)%nat.

Fixpoint utoa (fuel : nat) (n : Z) (acc : string) : string :=
  let acc' := String (digit (n mod 10)) acc in
  match fuel with
  | O => acc'
  | S fuel' => if (n / 10 =? 0)%Z then acc' else utoa fuel' (n / 10) acc'
  end.

(** A number has no more decimal digits than binary ones. *)
Definition itoa (n : Z) : string := utoa (Z.to_nat (Z.log2 n)) n "".

Fixpoint zeros (k : nat) : string :=
  match k with
  | O => ""
  | S k' => String "0" (zeros k')
  end.

Definition pad0 (wid : nat) (s : string) : string :=
  zeros (wid - String.length s)%nat +:+ s.

(** [%0<wid>d]; [wid = 0] is plain [%d]. *)
Definition fmt_d (wid : nat) (n : Z) : string :=
  if (n <? 0)%Z then "-" +:+ pad0 (wid - 1)%nat (itoa (- n)) else pad0 wid (itoa n).

(** The Go string ["\n"]. *)
Definition newline : string := String "010" "".

(** [fmt.Sprintf("%d-%02d-%02d", t.Year(), t.Month(), t.Day())] *)
Definition Sprintf_date (t : Time) : string :=
  fmt_d 0 (Year t) +:+ "-" +:+ fmt_d 2 (Month t) +:+ "-" +:+ fmt_d 2 (Day t).

Section Model.
Context {chess : Chess} {aurora : Aurora}.

(** [files]: the readable files and their bytes.  [creatable]: the paths
    [os.Create] can open.  [write_fault]: [Some n] when a write to the path
    stops with an error after [n] bytes.  [console]: the lines printed so
    far.  [heap]: the game records behind the [*chess.Game] pointers. *)
Record World := {
  files : gmap string string;
  creatable : string → bool;
  write_fault : string → option nat;
  clock : Time;
  console : list string;
  heap : gmap positive Game;
  gHumanIsBlack : bool;
  gEngineBinary : string;
  gGame : option positive
}.

Definition with_files (f : gmap string string) (w : World) : World :=
  {| files := f; creatable := creatable w; write_fault := write_fault w;
     clock := clock w; console := console w; heap := heap w;
     gHumanIsBlack := gHumanIsBlack w; gEngineBinary := gEngineBinary w;
     gGame := gGame w |}.

Definition with_console (c : list string) (w : World) : World :=
  {| files := files w; creatable := creatable w; write_fault := write_fault w;
     clock := clock w; console := c; heap := heap w;
     gHumanIsBlack := gHumanIsBlack w; gEngineBinary := gEngineBinary w;
     gGame := gGame w |}.

Definition with_heap (h : gmap positive Game) (w : World) : World :=
  {| files := files w; creatable := creatable w; write_fault := write_fault w;
     clock := clock w; console := console w; heap := h;
     gHumanIsBlack := gHumanIsBlack w; gEngineBinary := gEngineBinary w;
     gGame := gGame w |}.

Definition with_session (b : bool) (e : string) (w : World) : World :=
  {| files := files w; creatable := creatable w; write_fault := write_fault w;
     clock := clock w; console := console w; heap := heap w;
     gHumanIsBlack := b; gEngineBinary := e; gGame := gGame w |}.

Definition with_gGame (p : option positive) (w : World) : World :=
  {| files := files w; creatable := creatable w; write_fault := write_fault w;
     clock := clock w; console := console w; heap := heap w;
     gHumanIsBlack := gHumanIsBlack w; gEngineBinary := gEngineBinary w;
     gGame := p |}.

(** ** The monad: state, and Go panics *)

Inductive panic :=
  | PanicOutcome (o : Outcome)
  | NilDereference.

Inductive result (A : Type) :=
  | Ok (a : A) (w : World)
  | Panicked (p : panic).
Global Arguments Ok {A} a w.
Global Arguments Panicked {A} p.

Definition M (A : Type) : Type := World → result A.

Global Instance M_ret : MRet M := λ A a w, Ok a w.
Global Instance M_bind : MBind M := λ A B f m w,
  match m w with
  | Ok a w' => f a w'
  | Panicked p => Panicked p
  end.

Definition throw {A} (p : panic) : M A := λ _, Panicked p.

(** ** Runtime and library calls *)

(** [fmt.Println]: the operands separated by spaces, one line. *)
Definition Println (args : list string) : M unit :=
  λ w, Ok () (with_console (console w ++ [String.concat " " args]) w).

(** [ioutil.ReadFile] *)
Definition ReadFile (name : string) : M (string + error) :=
  λ w, match files w !! name with
       | Some dat => Ok (inl dat) w
       | None => Ok (inr (PathError "open" name)) w
       end.

(** [os.Create]: the file is created or truncated.  The handle is the path;
    [file.Close()], deferred in the source, has nothing to show here. *)
Definition Create (name : string) : M (option error) :=
  λ w, if creatable w name
       then Ok None (with_files (<[name := ""]> (files w)) w)
       else Ok (Some (PathError "open" name)) w.

(** [file.WriteString]: appends at the handle's offset; a failing write
    leaves the bytes it managed to write. *)
Definition WriteString (name s : string) : M (option error) :=
  λ w, let old := default "" (files w !! name) in
       match write_fault w name with
       | None => Ok None (with_files (<[name := old +:+ s]> (files w)) w)
       | Some n =>
           Ok (Some (PathError "write" name))
              (with_files (<[name := old +:+ substring 0 n s]> (files w)) w)
       end.

(** [time.Now()]: the reading of the world's clock.  No call of this file
    sets the clock; time passes between calls from outside, which
    [with_clock] below stands for. *)
Definition Now : M Time := λ w, Ok (clock w) w.

(** Reading and writing the globals. *)
Definition get_gHumanIsBlack : M bool := λ w, Ok (gHumanIsBlack w) w.
Definition get_gEngineBinary : M string := λ w, Ok (gEngineBinary w) w.
Definition get_gGame : M (option positive) := λ w, Ok (gGame w) w.
Definition set_session (b : bool) (e : string) : M unit :=
  λ w, Ok () (with_session b e w).

(** A method call through a [*chess.Game]: nil panics. *)
Definition deref (game : option positive) : M Game :=
  λ w, match game with
       | Some l => match heap w !! l with
                   | Some g => Ok g w
                   | None => Panicked NilDereference
                   end
       | None => Panicked NilDereference
       end.

Definition store (game : option positive) (g : Game) : M unit :=
  λ w, match game with
       | Some l => Ok () (with_heap (<[l := g]> (heap w)) w)
       | None => Panicked NilDereference
       end.

(** [chess.NewGame(pgn)]: a new record, or nil. *)
Definition alloc_NewGame (pgn : PGNOption) : M (option positive) :=
  λ w, match NewGame pgn with
       | Some g =>
           let l := fresh (dom (heap w)) in
           Ok (Some l) (with_heap (<[l := g]> (heap w)) w)
       | None => Ok None w
       end.

Definition game_GetTagPair (game : option positive) (key : string)
  : M (option TagPair) :=
  g ← deref game; mret (GameGetTagPair g key).

Definition game_AddTagPair (game : option positive) (k v : string) : M unit :=
  g ← deref game; store game (GameAddTagPair g k v).

Definition game_Outcome (game : option positive) : M Outcome :=
  g ← deref game; mret (GameOutcome g).

Definition game_Method (game : option positive) : M Method :=
  g ← deref game; mret (GameMethod g).

Definition game_Position (game : option positive) : M Position :=
  g ← deref game; mret (GamePosition g).

Definition game_String (game : option positive) : M string :=
  g ← deref game; mret (GameString g).

(** ** cmd/game.go *)

(** Lookup tag pair *)
Definition GetTagPair (game : option positive) (key : string) : M string :=
  match game with
  | Some _ =>
      tagPair ← game_GetTagPair game key;
      match tagPair with
      | Some tp => mret (Value tp)
      | None => mret ""
      end
  | None => mret ""
  end.

(** Start a game from a PGN file *)
Definition loadPGN (filename : string) : M (option positive) :=
  r ← ReadFile filename;
  match r with
  | inr _ =>
      Println [auString (auBold (auValue
        ("Unable to read " +:+ auString (auRed (auValue filename)) +:+ ".")))];;
      mret None
  | inl pgnDat =>
      match PGN pgnDat with
      | None =>
          Println [auString (auBold (auRed (auValue filename)));
                   "is not a valid PGN file."];;
          mret None
      | Some pgn =>
          game ← alloc_NewGame pgn;
          match game with
          | None =>
              Println ["Unable to initialize a new game from "
                       +:+ auString (auBold (auRed (auValue filename))) +:+ "."];;
              mret None
          | Some _ =>
              tpAnnotator ← GetTagPair game "Annotator";
              tpWhite ← GetTagPair game "White";
              tpBlack ← GetTagPair game "Black";
              (* Only load Pinata generated PGN files. *)
              if decide (tpAnnotator ≠ "pinata" ∨ tpWhite = "" ∨ tpBlack = "")
              then
                Println [auString (auBold (auRed (auValue filename)));
                         "is not generated by Pinata."];;
                mret None
              else
                (* Load previous settings. *)
                (if decide (tpBlack = "Human")
                 then
                   set_session true tpWhite;;
                   engine ← get_gEngineBinary;
                   Println ["You are playing "
                     +:+ auString (auBold (auYellow (auValue "Black")))
                     +:+ " against "
                     +:+ auString (auBold (auYellow (auValue engine)))
                     +:+ "."]
                 else
                   set_session false tpBlack;;
                   engine ← get_gEngineBinary;
                   Println ["You are playing "
                     +:+ auString (auBold (auYellow (auValue "White")))
                     +:+ " against "
                     +:+ auString (auBold (auYellow (auValue engine)))
                     +:+ "."]);;
                mret game
          end
      end
  end.

Definition humanColor : M Color :=
  b ← get_gHumanIsBlack;
  if (b : bool) then mret Black else mret White.

(** Save the game to a PGN file *)
Definition savePGN (game : option positive) (filename : string)
  : M (option error) :=
  r ← Create filename;
  match r with
  | Some err =>
      Println ["Unable to create"; auString (auBold (auRed (auValue filename)))];;
      mret (Some err)
  | None =>
      (* Generate PGN content. *)
      game_AddTagPair game "Annotator" "pinata";;
      curTime ← Now;
      let curDate := Sprintf_date curTime in
      game_AddTagPair game "Date" curDate;;
      o ← game_Outcome game;
      game_AddTagPair game "Result" (OutcomeString o);;
      c ← humanColor;
      (match c with
       | White =>
           game_AddTagPair game "White" "Human";;
           e ← get_gEngineBinary;
           game_AddTagPair game "Black" e
       | _ =>
           e ← get_gEngineBinary;
           game_AddTagPair game "White" e;;
           game_AddTagPair game "Black" "Human"
       end);;
      s ← game_String game;
      err ← WriteString filename (s +:+ newline);
      match err with
      | Some e =>
          Println ["Unable to save the game to";
                   auString (auBold (auRed (auValue filename)))];;
          mret (Some e)
      | None => mret None (* Success *)
      end
  end.

Definition isGameOver (game : option positive) : M bool :=
  o ← game_Outcome game;
  if decide (o = NoOutcome) then mret false
  else if decide (o = Draw) then
    m ← game_Method game;
    Println [auString (auBold (auYellow (auValue "Game Draw")))
             +:+ " (" +:+ auString (auBold (auValue (MethodString m))) +:+ ")"];;
    mret true (* The end. *)
  else if decide (o = WhiteWon) then
    m ← game_Method game;
    Println [auString (auBold (auYellow (auValue "White Won")))
             +:+ " (" +:+ auString (auBold (auValue (MethodString m))) +:+ ")"];;
    mret true
  else if decide (o = BlackWon) then
    m ← game_Method game;
    Println [auString (auBold (auYellow (auValue "Black Won")))
             +:+ " (" +:+ auString (auBold (auValue (MethodString m))) +:+ ")"];;
    mret true
  else
    o' ← game_Outcome game;
    throw (PanicOutcome o') (* should never happen. *).

(** Readline completion of all the valid moves left: the closure reads the
    global [gGame] when it is called. *)
Definition validMovesConstructor : M (string → M (list string)) :=
  mret (λ _ : string,
    game ← get_gGame;
    pos ← game_Position game;
    mret (fold_left
            (λ moves move, (moves ++ [EncodeAlgebraic pos move])%list)
            (PositionValidMoves pos) [])).

Definition validMoves (game : option positive) : M string :=
  pos ← game_Position game;
  mret (fold_left
          (λ moves move, moves +:+ " " +:+ EncodeAlgebraic pos move)
          (PositionValidMoves pos) "").

End Model.

(** ** Vocabulary of the properties *)

Section Vocabulary.
Context {chess : Chess} {aurora : Aurora}.

(** What [GetTagPair] answers for a record. *)
Definition tagValue (g : Game) (key : string) : string :=
  match GameGetTagPair g key with
  | Some tp => Value tp
  | None => ""
  end.

(** The collaborator's tag store: a tag that was added is the one found under
    its key, the other keys keep what they had. *)
Definition tag_store_law : Prop :=
  ∀ (g : Game) (k v k' : string),
    GameGetTagPair (GameAddTagPair g k v) k'
    = if decide (k' = k) then Some {| Key := k; Value := v |}
      else GameGetTagPair g k'.

(** Adding a tag is no move: the outcome stays. *)
Definition tags_keep_outcome : Prop :=
  ∀ (g : Game) (k v : string),
    GameOutcome (GameAddTagPair g k v) = GameOutcome g.

(** The reading of the clock moves on to [t]. *)
Definition with_clock (t : Time) (w : World) : World :=
  {| files := files w; creatable := creatable w; write_fault := write_fault w;
     clock := t; console := console w; heap := heap w;
     gHumanIsBlack := gHumanIsBlack w; gEngineBinary := gEngineBinary w;
     gGame := gGame w |}.


(** The record as [savePGN] leaves it. *)
Definition saved_record (w : World) (g : Game) : Game :=
  let g1 := GameAddTagPair g "Annotator" "pinata" in
  let g2 := GameAddTagPair g1 "Date" (Sprintf_date (clock w)) in
  let g3 := GameAddTagPair g2 "Result" (OutcomeString (GameOutcome g2)) in
  if gHumanIsBlack w
  then GameAddTagPair (GameAddTagPair g3 "White" (gEngineBinary w)) "Black" "Human"
  else GameAddTagPair (GameAddTagPair g3 "White" "Human") "Black" (gEngineBinary w).

(** The console after one more line. *)
Definition printed (line : string) (w : World) : World :=
  with_console (console w ++ [line]) w.

Definition unreadable_line (filename : string) : string :=
  auString (auBold (auValue
    ("Unable to read " +:+ auString (auRed (auValue filename)) +:+ "."))).

Definition rejection_line (filename : string) : string :=
  auString (auBold (auRed (auValue filename))) +:+ " "
  +:+ "is not generated by Pinata.".

Definition resume_line (side engine : string) : string :=
  "You are playing " +:+ auString (auBold (auYellow (auValue side)))
  +:+ " against " +:+ auString (auBold (auYellow (auValue engine))) +:+ ".".

Definition create_failure_line (filename : string) : string :=
  "Unable to create" +:+ " " +:+ auString (auBold (auRed (auValue filename))).

Definition write_failure_line (filename : string) : string :=
  "Unable to save the game to" +:+ " "
  +:+ auString (auBold (auRed (auValue filename))).

Definition over_line (what : string) (g : Game) : string :=
  auString (auBold (auYellow (auValue what))) +:+ " ("
  +:+ auString (auBold (auValue (MethodString (GameMethod g)))) +:+ ")".

(** The loader's gate. *)
Definition accepted (g : Game) : Prop :=
  tagValue g "Annotator" = "pinata" ∧ tagValue g "White" ≠ ""
  ∧ tagValue g "Black" ≠ "".

Definition legal_moves (g : Game) : list Move :=
  PositionValidMoves (GamePosition g).


(** A date of the four-digit years. *)
Definition civil_date (t : Time) : Prop :=
  (1000 ≤ Year t ≤ 9999)%Z ∧ (1 ≤ Month t ≤ 12)%Z ∧ (1 ≤ Day t ≤ 31)%Z.

(** The claims as the specification words them, where the code differs. *)


(** The other lines of a failed load. *)
Definition invalid_line (filename : string) : string :=
  auString (auBold (auRed (auValue filename))) +:+ " "
  +:+ "is not a valid PGN file.".

Definition uninitialised_line (filename : string) : string :=
  "Unable to initialize a new game from "
  +:+ auString (auBold (auRed (auValue filename))) +:+ ".".

(** The keys [savePGN] writes. *)
Definition saver_keys : list string :=
  ["Annotator"; "Date"; "Result"; "White"; "Black"].


Definition human_side_claim (w : World) (filename : string) : Prop :=
  ∀ l w' g, loadPGN filename w = Ok (Some l) w' → heap w' !! l = Some g →
    (tagValue g "Black" = "Human" →
       gHumanIsBlack w' = true ∧ gEngineBinary w' = tagValue g "White") ∧
    (tagValue g "White" = "Human" →
       gHumanIsBlack w' = false ∧ gEngineBinary w' = tagValue g "Black").

End Vocabulary.

(** [YYYY-MM-DD]: four digits of the year, two of the month, two of the day. *)
Definition YYYY_MM_DD (t : Time) : string :=
  String (digit (Year t / 1000)) (String (digit (Year t / 100 mod 10))
  (String (digit (Year t / 10 mod 10)) (String (digit (Year t mod 10))
  (String "-"
  (String (digit (Month t / 10)) (String (digit (Month t mod 10))
  (String "-"
  (String (digit (Day t / 10)) (String (digit (Day t mod 10)) ""))))))))).

(** ** A small collaborator

    An instance of the two interfaces to run the model on: tag pairs in an
    association list (the first pair with the key is the one found, adding
    overwrites it or appends), a move history of tokens, and a text form of
    bracketed tag lines followed by the move line, which [PGN] reads back.
    A position is the history; a move token ending in [#] leaves the side to
    move without a legal move.  The console is unstyled. *)
Module Mini.

Record game := {
  tags : list TagPair;
  moves : list string;
  outcome : string;
  method : string
}.

Definition dquote : string := String "034" "".

Fixpoint get_tag (l : list TagPair) (k : string) : option TagPair :=
  match l with
  | [] => None
  | tp :: l' => if decide (Key tp = k) then Some tp else get_tag l' k
  end.

Fixpoint add_tag (l : list TagPair) (k v : string) : list TagPair :=
  match l with
  | [] => [{| Key := k; Value := v |}]
  | tp :: l' =>
      if decide (Key tp = k) then {| Key := k; Value := v |} :: l'
      else tp :: add_tag l' k v
  end.

Definition add (g : game) (k v : string) : game :=
  {| tags := add_tag (tags g) k v; moves := moves g;
     outcome := outcome g; method := method g |}.

Definition tag_line (tp : TagPair) : string :=
  "[" +:+ Key tp +:+ " " +:+ dquote +:+ Value tp +:+ dquote +:+ "]" +:+ newline.

Definition to_string (g : game) : string :=
  String.concat "" (map tag_line (tags g)) +:+ newline
  +:+ String.concat "" (map (λ m, m +:+ " ") (moves g)) +:+ outcome g.

Fixpoint split_on (c : ascii) (s : string) : list string :=
  match s with
  | EmptyString => [""]
  | String a s' =>
      if Ascii.eqb a c then "" :: split_on c s'
      else match split_on c s' with
           | x :: r => String a x :: r
           | [] => [String a ""]
           end
  end.

Definition ends_with (suffix s : string) : bool :=
  let n := String.length s in
  let k := String.length suffix in
  (k <=? n)%nat && String.eqb (substring (n - k) k s) suffix.

Definition parse_tag (line : string) : option TagPair :=
  match split_on " " line with
  | String "[" key :: v :: vs =>
      let rest := String.concat " " (v :: vs) in
      match rest with
      | String "034" body =>
          if ends_with (dquote +:+ "]") body
          then Some {| Key := key;
                       Value := substring 0 (String.length body - 2) body |}
          else None
      | _ => None
      end
  | _ => None
  end.

Definition mates (m : string) : bool := ends_with "#" m.

Definition method_of (ms : list string) : string :=
  match last ms with
  | Some m => if mates m then "Checkmate" else "NoMethod"
  | None => "NoMethod"
  end.

Fixpoint parse_lines (ls : list string) (g : game) : option game :=
  match ls with
  | [] => Some g
  | EmptyString :: ls' => parse_lines ls' g
  | String "[" _ as line :: ls' =>
      match parse_tag line with
      | Some tp =>
          parse_lines ls'
            {| tags := (tags g ++ [tp])%list; moves := moves g;
               outcome := outcome g; method := method g |}
      | None => None
      end
  | line :: ls' =>
      let toks := split_on " " line in
      match last toks with
      | Some o =>
          let ms := removelast toks in
          parse_lines ls'
            {| tags := tags g; moves := ms; outcome := o;
               method := method_of ms |}
      | None => None
      end
  end.

Definition parse (text : string) : option game :=
  parse_lines (split_on "010" text)
    {| tags := []; moves := []; outcome := "*"; method := "NoMethod" |}.

Definition valid_moves (history : list string) : list string :=
  match last history with
  | Some m => if mates m then [] else ["e4"; "d4"]
  | None => ["e4"; "d4"]
  end.

#[export] Instance chess : Chess := {|
  Game := game;
  PGNOption := game;
  Outcome := string;
  Method := string;
  Position := list string;
  Move := string;
  NoOutcome := "*";
  Draw := "1/2-1/2";
  WhiteWon := "1-0";
  BlackWon := "0-1";
  outcomes_distinct := ltac:(by apply (bool_decide_unpack _));
  Checkmate := "Checkmate";
  Stalemate := "Stalemate";
  OutcomeString := λ o, o;
  MethodString := λ m, m;
  PGN := parse;
  NewGame := Some;
  GameGetTagPair := λ g, get_tag (tags g);
  GameAddTagPair := add;
  GameOutcome := outcome;
  GameMethod := method;
  GameMoves := moves;
  GamePosition := moves;
  GameString := to_string;
  PositionValidMoves := valid_moves;
  EncodeAlgebraic := λ _ m, m
|}.

#[export] Instance plain : Aurora := {|
  AuValue := string;
  auValue := λ s, s;
  auBold := λ v, v;
  auRed := λ v, v;
  auYellow := λ v, v;
  auString := λ v, v
|}.

(** A game after 1. f3 e5 2. g4 Qh4#. *)
Definition fools_mate : game :=
  {| tags := [{| Key := "Event"; Value := "Casual game" |}];
     moves := ["f3"; "e5"; "g4"; "Qh4#"];
     outcome := "0-1"; method := "Checkmate" |}.

(** A game just started. *)
Definition fresh_game : game :=
  {| tags := []; moves := []; outcome := "*"; method := "NoMethod" |}.

(** Both sides are tagged as the human. *)
Definition both_human : game :=
  {| tags := [{| Key := "Annotator"; Value := "pinata" |};
              {| Key := "White"; Value := "Human" |};
              {| Key := "Black"; Value := "Human" |}];
     moves := ["e4"]; outcome := "*"; method := "NoMethod" |}.

(** A game this program saved, the human playing White. *)
Definition saved_game : game :=
  {| tags := [{| Key := "Annotator"; Value := "pinata" |};
              {| Key := "Date"; Value := "2020-07-04" |};
              {| Key := "Result"; Value := "*" |};
              {| Key := "White"; Value := "Human" |};
              {| Key := "Black"; Value := "stockfish" |}];
     moves := ["e4"; "e5"]; outcome := "*"; method := "NoMethod" |}.

(** The marker is there, a White tag is not. *)
Definition unassigned : game :=
  {| tags := [{| Key := "Annotator"; Value := "pinata" |};
              {| Key := "Black"; Value := "stockfish" |}];
     moves := ["e4"]; outcome := "*"; method := "NoMethod" |}.


(** A game written by another program. *)
Definition foreign_game : game :=
  {| tags := [{| Key := "White"; Value := "Kasparov" |};
              {| Key := "Black"; Value := "Deep Blue" |}];
     moves := ["e4"; "c5"]; outcome := "*"; method := "NoMethod" |}.

(** An outcome outside the four. *)
Definition broken_game : game :=
  {| tags := []; moves := ["e4"]; outcome := "?"; method := "NoMethod" |}.

(** A world with one game record, at address 1, and no file. *)
Definition world (g : game) (humanIsBlack : bool) (engine : string) : World :=
  {| files := ∅;
     creatable := λ p, negb (String.prefix "/nonexistent/" p);
     write_fault := λ p, if String.prefix "/full/" p then Some 3%nat else None;
     clock := {| Year := 2020; Month := 7; Day := 4 |};
     console := [];
     heap := {[ 1%positive := g ]};
     gHumanIsBlack := humanIsBlack;
     gEngineBinary := engine;
     gGame := Some 1%positive |}.

(** The same world with the text of [g] in the file [path]. *)
Definition world_with_file (path : string) (g : game) : World :=
  with_files {[ path := to_string g +:+ newline ]} (world fresh_game true "gnuchess").

End Mini.

(** * Properties *)

(** ** Formatting the date *)

(** Linear arithmetic with quotients and remainders by constants. *)
Ltac lia_div := Z.div_mod_to_equations; lia.

Lemma utoa_small (fuel : nat) (n : Z) (acc : string) :
  (0 ≤ n < 10)%Z → utoa fuel n acc = String (digit n) acc.
Proof.
  intros Hn. destruct fuel; cbn [utoa]; rewrite Z.mod_small by lia; [done|].
  by rewrite Z.div_small by lia.
Qed.

Lemma utoa_step (fuel : nat) (n : Z) (acc : string) :
  (10 ≤ n)%Z →
  utoa (S fuel) n acc = utoa fuel (n / 10) (String (digit (n mod 10)) acc).
Proof.
  intros Hn. cbn [utoa]. destruct (Z.eqb_spec (n / 10) 0) as [E|]; [|done].
  apply Z.div_small_iff in E; lia.
Qed.

Lemma log2_lower (k n : Z) : (0 ≤ k)%Z → (2 ^ k ≤ n)%Z → (k ≤ Z.log2 n)%Z.
Proof.
  intros Hk Hn. apply Z.log2_le_pow2; [|done].
  pose proof (Z.pow_pos_nonneg 2 k). lia.
Qed.

Lemma itoa_one_digit (n : Z) :
  (0 ≤ n < 10)%Z → itoa n = String (digit n) "".
Proof. intros Hn. unfold itoa. by apply utoa_small. Qed.

Lemma itoa_two_digits (n : Z) :
  (10 ≤ n < 100)%Z →
  itoa n = String (digit (n / 10)) (String (digit (n mod 10)) "").
Proof.
  intros Hn. unfold itoa.
  assert (3 ≤ Z.log2 n)%Z as Hlog by (apply log2_lower; simpl; lia).
  destruct (Z.to_nat (Z.log2 n)) as [|fuel] eqn:E; [lia|].
  rewrite utoa_step by lia. apply utoa_small. lia_div.
Qed.

Lemma itoa_four_digits (n : Z) :
  (1000 ≤ n < 10000)%Z →
  itoa n = String (digit (n / 1000)) (String (digit (n / 100 mod 10))
             (String (digit (n / 10 mod 10)) (String (digit (n mod 10)) ""))).
Proof.
  intros Hn. unfold itoa.
  assert (9 ≤ Z.log2 n)%Z as Hlog by (apply log2_lower; simpl; lia).
  destruct (Z.to_nat (Z.log2 n)) as [|[|[|fuel]]] eqn:E; [lia..|].
  rewrite !utoa_step by lia_div. rewrite utoa_small by lia_div.
  replace (n / 10 / 10)%Z with (n / 100)%Z by lia_div.
  by replace (n / 100 / 10)%Z with (n / 1000)%Z by lia_div.
Qed.

Lemma fmt_two_wide (n : Z) :
  (0 ≤ n < 100)%Z →
  fmt_d 2 n = String (digit (n / 10)) (String (digit (n mod 10)) "").
Proof.
  intros Hn. unfold fmt_d. destruct (Z.ltb_spec n 0) as [|_]; [lia|].
  destruct (Z.lt_ge_cases n 10) as [Hlt|Hge].
  - rewrite itoa_one_digit by lia.
    rewrite Z.div_small, Z.mod_small by lia. reflexivity.
  - rewrite itoa_two_digits by lia. reflexivity.
Qed.

Lemma Sprintf_date_civil (t : Time) :
  civil_date t → Sprintf_date t = YYYY_MM_DD t.
Proof.
  intros (Hy & Hm & Hd). unfold Sprintf_date, YYYY_MM_DD.
  rewrite !fmt_two_wide by lia.
  unfold fmt_d. destruct (Z.ltb_spec (Year t) 0) as [|_]; [lia|].
  rewrite itoa_four_digits by lia. reflexivity.
Qed.

(** ** Running the model *)

(** The projections of an updated world. *)
Ltac world_simpl :=
  cbn [files creatable write_fault clock console heap gHumanIsBlack
       gEngineBinary gGame with_files with_console with_heap with_session
       with_gGame with_clock printed].

Section Run.
Context {chess : Chess} {aurora : Aurora}.

Lemma bind_Ok {A B} (m : M A) (f : A → M B) (w w' : World) (a : A) :
  m w = Ok a w' → (m ≫= f) w = f a w'.
Proof. intros H. unfold mbind, M_bind. by rewrite H. Qed.

End Run.

(** One call of a sequence: [tac] runs the call, the rest goes on in the
    world it leaves. *)
Ltac step tac := erewrite bind_Ok by tac; cbv beta iota; world_simpl.

Section Calls.
Context {chess : Chess} {aurora : Aurora}.

Lemma deref_run (w : World) (l : positive) (g : Game) :
  heap w !! l = Some g → deref (Some l) w = Ok g w.
Proof. intros H. unfold deref. by rewrite H. Qed.

Lemma GetTagPair_run (w : World) (l : positive) (g : Game) (k : string) :
  heap w !! l = Some g → GetTagPair (Some l) k w = Ok (tagValue g k) w.
Proof.
  intros H. unfold GetTagPair, tagValue.
  assert (game_GetTagPair (Some l) k w = Ok (GameGetTagPair g k) w) as E.
  { unfold game_GetTagPair. by rewrite (bind_Ok _ _ _ _ _ (deref_run _ _ _ H)). }
  rewrite (bind_Ok _ _ _ _ _ E). by destruct (GameGetTagPair g k).
Qed.

Lemma game_AddTagPair_run (w : World) (l : positive) (g : Game) (k v : string) :
  heap w !! l = Some g →
  game_AddTagPair (Some l) k v w
  = Ok () (with_heap (<[l := GameAddTagPair g k v]> (heap w)) w).
Proof.
  intros H. unfold game_AddTagPair. by rewrite (bind_Ok _ _ _ _ _ (deref_run _ _ _ H)).
Qed.

Lemma game_Outcome_run (w : World) (l : positive) (g : Game) :
  heap w !! l = Some g → game_Outcome (Some l) w = Ok (GameOutcome g) w.
Proof.
  intros H. unfold game_Outcome. by rewrite (bind_Ok _ _ _ _ _ (deref_run _ _ _ H)).
Qed.

Lemma game_Method_run (w : World) (l : positive) (g : Game) :
  heap w !! l = Some g → game_Method (Some l) w = Ok (GameMethod g) w.
Proof.
  intros H. unfold game_Method. by rewrite (bind_Ok _ _ _ _ _ (deref_run _ _ _ H)).
Qed.

Lemma game_Position_run (w : World) (l : positive) (g : Game) :
  heap w !! l = Some g → game_Position (Some l) w = Ok (GamePosition g) w.
Proof.
  intros H. unfold game_Position. by rewrite (bind_Ok _ _ _ _ _ (deref_run _ _ _ H)).
Qed.

Lemma game_String_run (w : World) (l : positive) (g : Game) :
  heap w !! l = Some g → game_String (Some l) w = Ok (GameString g) w.
Proof.
  intros H. unfold game_String. by rewrite (bind_Ok _ _ _ _ _ (deref_run _ _ _ H)).
Qed.

Lemma humanColor_run (w : World) :
  humanColor w = Ok (if gHumanIsBlack w then Black else White) w.
Proof.
  unfold humanColor, get_gHumanIsBlack, mbind, M_bind.
  by destruct (gHumanIsBlack w).
Qed.

(** The record behind [l] after a store through [l]. *)
Lemma heap_stored (w : World) (l : positive) (g : Game) (h : gmap positive Game) :
  heap (with_heap (<[l := g]> h) w) !! l = Some g.
Proof. apply lookup_insert_eq. Qed.

Lemma savePGN_uncreatable (w : World) (game : option positive) (filename : string) :
  creatable w filename = false →
  savePGN game filename w
  = Ok (Some (PathError "open" filename)) (printed (create_failure_line filename) w).
Proof.
  intros H. unfold savePGN, Create, mbind, M_bind. rewrite H. reflexivity.
Qed.

Lemma savePGN_created (w : World) (l : positive) (g : Game) (filename : string) :
  creatable w filename = true → heap w !! l = Some g →
  let g' := saved_record w g in
  let text := GameString g' +:+ newline in
  let w1 := with_heap (<[l := g']> (heap w)) w in
  savePGN (Some l) filename w
  = match write_fault w filename with
    | None => Ok None (with_files (<[filename := text]> (files w)) w1)
    | Some n =>
        Ok (Some (PathError "write" filename))
           (printed (write_failure_line filename)
              (with_files (<[filename := substring 0 n text]> (files w)) w1))
    end.
Proof.
  intros Hc Hg. unfold savePGN.
  step ltac:(unfold Create; rewrite Hc; reflexivity).
  step ltac:(apply game_AddTagPair_run; exact Hg).
  step ltac:(reflexivity).
  step ltac:(apply game_AddTagPair_run, heap_stored).
  step ltac:(apply game_Outcome_run, heap_stored).
  step ltac:(apply game_AddTagPair_run, heap_stored).
  step ltac:(apply humanColor_run).
  unfold saved_record.
  destruct (gHumanIsBlack w) eqn:Hb.
  - step ltac:(step ltac:(reflexivity);
               step ltac:(apply game_AddTagPair_run, heap_stored);
               apply game_AddTagPair_run, heap_stored).
    step ltac:(apply game_String_run, heap_stored).
    unfold WriteString, Println, mbind, M_bind, mret, M_ret. world_simpl.
    rewrite lookup_insert_eq. cbn [default from_option id].
    destruct (write_fault w filename); world_simpl;
      rewrite !insert_insert_eq; reflexivity.
  - step ltac:(step ltac:(apply game_AddTagPair_run, heap_stored);
               step ltac:(reflexivity);
               apply game_AddTagPair_run, heap_stored).
    step ltac:(apply game_String_run, heap_stored).
    unfold WriteString, Println, mbind, M_bind, mret, M_ret. world_simpl.
    rewrite lookup_insert_eq. cbn [default from_option id].
    destruct (write_fault w filename); world_simpl;
      rewrite !insert_insert_eq; reflexivity.
Qed.

Lemma loadPGN_unreadable (w : World) (filename : string) :
  files w !! filename = None →
  loadPGN filename w = Ok None (printed (unreadable_line filename) w).
Proof.
  intros H. unfold loadPGN.
  step ltac:(unfold ReadFile; rewrite H; reflexivity). reflexivity.
Qed.

Lemma loadPGN_unparsable (w : World) (filename dat : string) :
  files w !! filename = Some dat → PGN dat = None →
  ∃ line, loadPGN filename w = Ok None (printed line w).
Proof.
  intros H Hp. unfold loadPGN.
  step ltac:(unfold ReadFile; rewrite H; reflexivity). rewrite Hp.
  eexists. reflexivity.
Qed.

Lemma loadPGN_uninitialised (w : World) (filename dat : string) (pgn : PGNOption) :
  files w !! filename = Some dat → PGN dat = Some pgn → NewGame pgn = None →
  ∃ line, loadPGN filename w = Ok None (printed line w).
Proof.
  intros H Hp Hn. unfold loadPGN.
  step ltac:(unfold ReadFile; rewrite H; reflexivity). rewrite Hp.
  step ltac:(unfold alloc_NewGame; rewrite Hn; reflexivity).
  eexists. reflexivity.
Qed.

Lemma loadPGN_parsed (w : World) (filename dat : string) (pgn : PGNOption)
    (g : Game) :
  files w !! filename = Some dat → PGN dat = Some pgn → NewGame pgn = Some g →
  let l := fresh (dom (heap w)) in
  let w1 := with_heap (<[l := g]> (heap w)) w in
  loadPGN filename w
  = if decide (tagValue g "Annotator" ≠ "pinata" ∨ tagValue g "White" = ""
               ∨ tagValue g "Black" = "")
    then Ok None (printed (rejection_line filename) w1)
    else if decide (tagValue g "Black" = "Human")
    then Ok (Some l)
           (printed (resume_line "Black" (tagValue g "White"))
              (with_session true (tagValue g "White") w1))
    else Ok (Some l)
           (printed (resume_line "White" (tagValue g "Black"))
              (with_session false (tagValue g "Black") w1)).
Proof.
  intros H Hp Hn. unfold loadPGN.
  step ltac:(unfold ReadFile; rewrite H; reflexivity). rewrite Hp.
  step ltac:(unfold alloc_NewGame; rewrite Hn; reflexivity).
  step ltac:(apply GetTagPair_run, heap_stored).
  step ltac:(apply GetTagPair_run, heap_stored).
  step ltac:(apply GetTagPair_run, heap_stored).
  destruct (decide (_ ∨ _)); [reflexivity|].
  destruct (decide (tagValue g "Black" = "Human")); reflexivity.
Qed.

End Calls.

(** ** The session loader *)

Section Loader.
Context {chess : Chess} {aurora : Aurora}.

(** A new record leaves the records that exist alone. *)
Lemma heap_fresh_subseteq (h : gmap positive Game) (g : Game) :
  h ⊆ <[fresh (dom h) := g]> h.
Proof.
  apply insert_subseteq, not_elem_of_dom, is_fresh.
Qed.

(** What a load that returns a game went through. *)
Lemma loadPGN_accepted_inv (w w' : World) (filename : string) (l : positive) :
  loadPGN filename w = Ok (Some l) w' →
  ∃ g, heap w' !! l = Some g ∧ accepted g ∧
       gHumanIsBlack w' = bool_decide (tagValue g "Black" = "Human") ∧
       gEngineBinary w'
       = (if decide (tagValue g "Black" = "Human") then tagValue g "White"
          else tagValue g "Black").
Proof.
  intros Hload.
  destruct (files w !! filename) as [dat|] eqn:Hf;
    [|by rewrite (loadPGN_unreadable _ _ Hf) in Hload].
  destruct (PGN dat) as [pgn|] eqn:Hp;
    [|by destruct (loadPGN_unparsable _ _ _ Hf Hp) as [? E];
         rewrite E in Hload].
  destruct (NewGame pgn) as [g|] eqn:Hn;
    [|by destruct (loadPGN_uninitialised _ _ _ _ Hf Hp Hn) as [? E];
         rewrite E in Hload].
  rewrite (loadPGN_parsed _ _ _ _ _ Hf Hp Hn) in Hload.
  destruct (decide (_ ∨ _)) as [|Hacc]; [done|].
  exists g.
  assert (accepted g) as Ha.
  { unfold accepted. repeat split.
    - destruct (decide (tagValue g "Annotator" = "pinata")); [done|].
      exfalso. apply Hacc. by left.
    - intros E. apply Hacc. right. by left.
    - intros E. apply Hacc. right. by right. }
  destruct (decide (tagValue g "Black" = "Human")) as [Hb|Hb];
    injection Hload as <- <-; world_simpl.
  - rewrite bool_decide_eq_true_2 by done.
    split; [apply lookup_insert_eq|done].
  - rewrite bool_decide_eq_false_2 by done.
    split; [apply lookup_insert_eq|done].
Qed.

(** C2. Provenance gate: a file that parses and seeds a game, and whose
    Annotator tag value is not ["pinata"] (a missing tag reads as the empty
    string), is rejected: [loadPGN] prints the rejection line and returns
    nil; the session globals, the files and the existing records are as
    before. *)
Theorem loadPGN_provenance_gate (w : World) (filename dat : string)
    (pgn : PGNOption) (g : Game) :
  files w !! filename = Some dat → PGN dat = Some pgn → NewGame pgn = Some g →
  tagValue g "Annotator" ≠ "pinata" →
  ∃ w', loadPGN filename w = Ok None w' ∧
        console w' = (console w ++ [rejection_line filename])%list ∧
        gHumanIsBlack w' = gHumanIsBlack w ∧
        gEngineBinary w' = gEngineBinary w ∧
        gGame w' = gGame w ∧ files w' = files w ∧ heap w ⊆ heap w'.
Proof.
  intros Hf Hp Hn Hann. rewrite (loadPGN_parsed _ _ _ _ _ Hf Hp Hn).
  rewrite decide_True by (by left).
  eexists. split; [reflexivity|]. world_simpl.
  repeat split. apply heap_fresh_subseteq.
Qed.

(** C4. Empty player tag: a file that parses and seeds a game is rejected
    when its White tag value or its Black tag value is the empty string,
    whatever its Annotator tag. *)
Theorem loadPGN_empty_player_rejected (w : World) (filename dat : string)
    (pgn : PGNOption) (g : Game) :
  files w !! filename = Some dat → PGN dat = Some pgn → NewGame pgn = Some g →
  tagValue g "White" = "" ∨ tagValue g "Black" = "" →
  ∃ w', loadPGN filename w = Ok None w' ∧
        console w' = (console w ++ [rejection_line filename])%list ∧
        gHumanIsBlack w' = gHumanIsBlack w ∧
        gEngineBinary w' = gEngineBinary w ∧
        gGame w' = gGame w ∧ files w' = files w ∧ heap w ⊆ heap w'.
Proof.
  intros Hf Hp Hn Hempty. rewrite (loadPGN_parsed _ _ _ _ _ Hf Hp Hn).
  rewrite decide_True by (by right).
  eexists. split; [reflexivity|]. world_simpl.
  repeat split. apply heap_fresh_subseteq.
Qed.

(** C3, amended. Human-side decoding: for a file the loader accepts, if the
    Black tag value is ["Human"] then [gHumanIsBlack] is true and the engine
    is the White tag value; if the White tag value is ["Human"] and the Black
    one is not, then [gHumanIsBlack] is false and the engine is the Black tag
    value. *)
Theorem loadPGN_human_side (w w' : World) (filename : string) (l : positive) :
  loadPGN filename w = Ok (Some l) w' →
  ∃ g, heap w' !! l = Some g ∧
    (tagValue g "Black" = "Human" →
       gHumanIsBlack w' = true ∧ gEngineBinary w' = tagValue g "White") ∧
    (tagValue g "White" = "Human" → tagValue g "Black" ≠ "Human" →
       gHumanIsBlack w' = false ∧ gEngineBinary w' = tagValue g "Black").
Proof.
  intros Hload.
  destruct (loadPGN_accepted_inv _ _ _ _ Hload) as (g & Hg & _ & Hb & He).
  exists g. split; [done|]. split.
  - intros E. rewrite Hb, He.
    by rewrite bool_decide_eq_true_2, decide_True by done.
  - intros _ E. rewrite Hb, He.
    by rewrite bool_decide_eq_false_2, decide_False by done.
Qed.

End Loader.

Lemma loadPGN_provenance_gate_witness :
  ∃ w', loadPGN (chess := Mini.chess) (aurora := Mini.plain) "kasparov.pgn"
          (Mini.world_with_file "kasparov.pgn" Mini.foreign_game) = Ok None w' ∧
        console w' = ["kasparov.pgn is not generated by Pinata."] ∧
        gHumanIsBlack w' = true ∧ gEngineBinary w' = "gnuchess".
Proof.
  destruct (loadPGN_provenance_gate (chess := Mini.chess) (aurora := Mini.plain)
              (Mini.world_with_file "kasparov.pgn" Mini.foreign_game)
              "kasparov.pgn"
              (Mini.to_string Mini.foreign_game +:+ newline)
              Mini.foreign_game Mini.foreign_game)
    as (w' & E & Hc & Hb & He & _);
    [vm_compute; reflexivity | vm_compute; reflexivity | reflexivity
    | vm_compute; discriminate |].
  exists w'. split; [exact E|]. split; [exact Hc|]. split; [exact Hb|exact He].
Defined.

Lemma loadPGN_empty_player_rejected_witness :
  ∃ w', loadPGN (chess := Mini.chess) (aurora := Mini.plain) "white.pgn"
          (Mini.world_with_file "white.pgn" Mini.unassigned) = Ok None w' ∧
        console w' = ["white.pgn is not generated by Pinata."] ∧
        gHumanIsBlack w' = true ∧ gEngineBinary w' = "gnuchess".
Proof.
  destruct (loadPGN_empty_player_rejected
              (chess := Mini.chess) (aurora := Mini.plain)
              (Mini.world_with_file "white.pgn" Mini.unassigned)
              "white.pgn"
              (Mini.to_string Mini.unassigned +:+ newline)
              Mini.unassigned Mini.unassigned)
    as (w' & E & Hc & Hb & He & _);
    [vm_compute; reflexivity | vm_compute; reflexivity | reflexivity
    | left; vm_compute; reflexivity |].
  exists w'. split; [exact E|]. split; [exact Hc|]. split; [exact Hb|exact He].
Defined.

Lemma loadPGN_human_side_witness :
  ∃ l w', loadPGN (chess := Mini.chess) (aurora := Mini.plain) "game.pgn"
            (Mini.world_with_file "game.pgn" Mini.saved_game) = Ok (Some l) w' ∧
          heap w' !! l = Some Mini.saved_game ∧
          gHumanIsBlack w' = false ∧ gEngineBinary w' = "stockfish".
Proof.
  assert (∃ l w', loadPGN (chess := Mini.chess) (aurora := Mini.plain) "game.pgn"
            (Mini.world_with_file "game.pgn" Mini.saved_game) = Ok (Some l) w' ∧
          heap w' !! l = Some Mini.saved_game) as (l & w' & E & Hl).
  { eexists _, _. split; vm_compute; reflexivity. }
  destruct (loadPGN_human_side _ _ _ _ E) as (g & Hg & _ & Hw).
  pose proof (eq_trans (eq_sym Hg) Hl) as Heq. injection Heq as ->.
  exists l, w'. split; [exact E|]. split; [exact Hl|].
  apply Hw; vm_compute; [reflexivity|discriminate].
Defined.

(** C3 as worded fails where both tags say ["Human"]: the first rule gives
    [gHumanIsBlack = true], the second asks for [false]. *)
Lemma human_side_claim_counterexample :
  ¬ human_side_claim (chess := Mini.chess) (aurora := Mini.plain)
      (Mini.world_with_file "both.pgn" Mini.both_human) "both.pgn".
Proof.
  intros H.
  assert (∃ l w', loadPGN (chess := Mini.chess) (aurora := Mini.plain) "both.pgn"
            (Mini.world_with_file "both.pgn" Mini.both_human) = Ok (Some l) w' ∧
          heap w' !! l = Some Mini.both_human ∧ gHumanIsBlack w' = true)
    as (l & w' & E & Hl & Hb).
  { eexists _, _. repeat split; vm_compute; reflexivity. }
  destruct (H l w' _ E Hl) as [_ H2].
  destruct H2 as [Hf _]; [vm_compute; reflexivity|].
  rewrite Hb in Hf. discriminate.
Qed.

(** ** The session saver *)

Section Saver.
Context {chess : Chess} {aurora : Aurora}.

(** The five tags of the record [savePGN] leaves, its outcome, and the tags
    it does not write. *)
Lemma saved_record_tags (w : World) (g : Game) :
  tag_store_law → tags_keep_outcome →
  tagValue (saved_record w g) "Annotator" = "pinata" ∧
  tagValue (saved_record w g) "Date" = Sprintf_date (clock w) ∧
  tagValue (saved_record w g) "Result" = OutcomeString (GameOutcome g) ∧
  tagValue (saved_record w g) "White"
  = (if gHumanIsBlack w then gEngineBinary w else "Human") ∧
  tagValue (saved_record w g) "Black"
  = (if gHumanIsBlack w then "Human" else gEngineBinary w) ∧
  GameOutcome (saved_record w g) = GameOutcome g.
Proof.
  intros Hlaw Hout. unfold saved_record, tagValue.
  destruct (gHumanIsBlack w); rewrite !Hlaw, !Hout;
    repeat split; repeat case_decide; done.
Qed.

(** The tags the loader looks at, from the tag store alone. *)
Lemma saved_record_session_tags (w : World) (g : Game) :
  tag_store_law →
  tagValue (saved_record w g) "Annotator" = "pinata" ∧
  tagValue (saved_record w g) "White"
  = (if gHumanIsBlack w then gEngineBinary w else "Human") ∧
  tagValue (saved_record w g) "Black"
  = (if gHumanIsBlack w then "Human" else gEngineBinary w).
Proof.
  intros Hlaw. unfold saved_record, tagValue.
  destruct (gHumanIsBlack w); rewrite !Hlaw;
    repeat split; repeat case_decide; done.
Qed.

(** A save that returns nil went through both file calls. *)
Lemma savePGN_nil_inv (w w' : World) (l : positive) (g : Game)
    (filename : string) :
  heap w !! l = Some g → savePGN (Some l) filename w = Ok None w' →
  w' = with_files
         (<[filename := GameString (saved_record w g) +:+ newline]> (files w))
         (with_heap (<[l := saved_record w g]> (heap w)) w).
Proof.
  intros Hg Hsave.
  destruct (creatable w filename) eqn:Hc;
    [|by rewrite (savePGN_uncreatable _ _ _ Hc) in Hsave].
  rewrite (savePGN_created _ _ _ _ Hc Hg) in Hsave.
  destruct (write_fault w filename); [done|]. by injection Hsave as <-.
Qed.

(** C7. Save annotation and output: after a successful save, the record has
    Annotator ["pinata"], Date the clock's date as YYYY-MM-DD with month and
    day padded with zeros, Result the string form of the outcome, ["Human"]
    on the human's side and the engine on the other, and the file holds the
    record's text followed by one newline. *)
Theorem savePGN_success (w w' : World) (l : positive) (g : Game)
    (filename : string) :
  tag_store_law → tags_keep_outcome → civil_date (clock w) →
  heap w !! l = Some g →
  savePGN (Some l) filename w = Ok None w' →
  ∃ g', heap w' !! l = Some g' ∧
    tagValue g' "Annotator" = "pinata" ∧
    tagValue g' "Date" = YYYY_MM_DD (clock w) ∧
    tagValue g' "Result" = OutcomeString (GameOutcome g') ∧
    GameOutcome g' = GameOutcome g ∧
    tagValue g' "White" = (if gHumanIsBlack w then gEngineBinary w else "Human") ∧
    tagValue g' "Black" = (if gHumanIsBlack w then "Human" else gEngineBinary w) ∧
    files w' !! filename = Some (GameString g' +:+ newline).
Proof.
  intros Hlaw Hout Hdate Hg Hsave.
  rewrite (savePGN_nil_inv _ _ _ _ _ Hg Hsave). world_simpl.
  destruct (saved_record_tags w g Hlaw Hout) as (Ha & Hd & Hr & Hw & Hb & Ho).
  exists (saved_record w g). rewrite !lookup_insert_eq.
  rewrite Ha, Hd, Hr, Hw, Hb, Ho, (Sprintf_date_civil _ Hdate). done.
Qed.

(** C8. Save failure: when the path cannot be created, [savePGN] prints the
    failure, returns the error, and writes nothing: the files are as they
    were (and so are the records). *)
Theorem savePGN_create_failure (w : World) (game : option positive)
    (filename : string) :
  creatable w filename = false →
  ∃ err w', savePGN game filename w = Ok (Some err) w' ∧
    console w' = (console w ++ [create_failure_line filename])%list ∧
    files w' = files w ∧ heap w' = heap w.
Proof.
  intros Hc. rewrite (savePGN_uncreatable _ _ _ Hc).
  eexists _, _. split; [reflexivity|]. done.
Qed.

(** C10. Atomicity boundary: when the file cannot be created, [savePGN]
    returns the error and the records are untouched; when the file is created
    and the write fails, [savePGN] returns an error and the record keeps the
    five tags it was given. *)
Theorem savePGN_atomicity_boundary (w : World) (l : positive) (g : Game)
    (filename : string) :
  tag_store_law → tags_keep_outcome → heap w !! l = Some g →
  (creatable w filename = false →
     ∃ err w', savePGN (Some l) filename w = Ok (Some err) w' ∧
               heap w' = heap w) ∧
  (creatable w filename = true → is_Some (write_fault w filename) →
     ∃ err w' g', savePGN (Some l) filename w = Ok (Some err) w' ∧
       heap w' !! l = Some g' ∧
       tagValue g' "Annotator" = "pinata" ∧
       tagValue g' "Date" = Sprintf_date (clock w) ∧
       tagValue g' "Result" = OutcomeString (GameOutcome g) ∧
       tagValue g' "White"
       = (if gHumanIsBlack w then gEngineBinary w else "Human") ∧
       tagValue g' "Black"
       = (if gHumanIsBlack w then "Human" else gEngineBinary w)).
Proof.
  intros Hlaw Hout Hg. split.
  - intros Hc. rewrite (savePGN_uncreatable _ _ _ Hc).
    eexists _, _. split; [reflexivity|done].
  - intros Hc [n Hn]. rewrite (savePGN_created _ _ _ _ Hc Hg), Hn.
    destruct (saved_record_tags w g Hlaw Hout) as (Ha & Hd & Hr & Hw & Hb & _).
    eexists _, _, (saved_record w g). split; [reflexivity|]. world_simpl.
    by rewrite lookup_insert_eq.
Qed.


End Saver.

(** The small collaborator keeps the two laws. *)
Lemma Mini_tag_store : tag_store_law (chess := Mini.chess).
Proof.
  intros g k v k'. cbn. induction (Mini.tags g) as [|tp tags IH]; cbn.
  - by repeat case_decide.
  - repeat case_decide; cbn; repeat case_decide; congruence.
Qed.

Lemma Mini_tags_keep_outcome : tags_keep_outcome (chess := Mini.chess).
Proof. by intros g k v. Qed.

Lemma savePGN_success_witness :
  ∃ w', savePGN (chess := Mini.chess) (aurora := Mini.plain) (Some 1%positive)
          "game.pgn" (Mini.world Mini.fools_mate true "stockfish") = Ok None w' ∧
    ∃ g', heap w' !! 1%positive = Some g' ∧
      tagValue g' "Annotator" = "pinata" ∧
      tagValue g' "Date" = "2020-07-04" ∧
      tagValue g' "Result" = "0-1" ∧
      tagValue g' "White" = "stockfish" ∧
      tagValue g' "Black" = "Human" ∧
      files w' !! "game.pgn" = Some (Mini.to_string g' +:+ newline).
Proof.
  assert (∃ w', savePGN (chess := Mini.chess) (aurora := Mini.plain)
            (Some 1%positive) "game.pgn"
            (Mini.world Mini.fools_mate true "stockfish") = Ok None w')
    as [w' E].
  { eexists. vm_compute. reflexivity. }
  exists w'. split; [exact E|].
  destruct (savePGN_success (aurora := Mini.plain)
              (Mini.world Mini.fools_mate true "stockfish") w'
              1%positive Mini.fools_mate "game.pgn"
              Mini_tag_store Mini_tags_keep_outcome
              ltac:(unfold civil_date; cbn; lia)
              ltac:(vm_compute; reflexivity) E)
    as (g' & Hg' & Ha & Hd & Hr & Ho & Hw & Hb & Hf).
  exists g'. rewrite Ho in Hr. by repeat split.
Defined.

Lemma savePGN_create_failure_witness :
  ∃ err w', savePGN (chess := Mini.chess) (aurora := Mini.plain)
              (Some 1%positive) "/nonexistent/game.pgn"
              (Mini.world Mini.fools_mate false "stockfish") = Ok (Some err) w' ∧
    console w' = ["Unable to create /nonexistent/game.pgn"] ∧ files w' = ∅.
Proof.
  destruct (savePGN_create_failure (chess := Mini.chess) (aurora := Mini.plain)
              (Mini.world Mini.fools_mate false "stockfish") (Some 1%positive)
              "/nonexistent/game.pgn" ltac:(vm_compute; reflexivity))
    as (err & w' & E & Hc & Hf & _).
  exists err, w'. split; [exact E|]. split; [exact Hc|exact Hf].
Defined.

Lemma savePGN_atomicity_boundary_witness :
  ∃ err w' g', savePGN (chess := Mini.chess) (aurora := Mini.plain)
                 (Some 1%positive) "/full/game.pgn"
                 (Mini.world Mini.fools_mate false "stockfish")
               = Ok (Some err) w' ∧
    heap w' !! 1%positive = Some g' ∧
    tagValue g' "Annotator" = "pinata" ∧ tagValue g' "White" = "Human" ∧
    tagValue g' "Black" = "stockfish".
Proof.
  destruct (savePGN_atomicity_boundary (chess := Mini.chess) (aurora := Mini.plain)
              (Mini.world Mini.fools_mate false "stockfish") 1%positive
              Mini.fools_mate "/full/game.pgn"
              Mini_tag_store Mini_tags_keep_outcome
              ltac:(vm_compute; reflexivity)) as [_ Hwrite].
  destruct Hwrite as (err & w' & g' & E & Hg' & Ha & _ & _ & Hw & Hb);
    [vm_compute; reflexivity | vm_compute; eauto |].
  exists err, w', g'. by repeat split.
Defined.



(** ** The outcome reporter *)

Section Reporter.
Context {chess : Chess} {aurora : Aurora}.

Lemma outcomes_ne :
  Draw ≠ NoOutcome ∧ WhiteWon ≠ NoOutcome ∧ BlackWon ≠ NoOutcome ∧
  WhiteWon ≠ Draw ∧ BlackWon ≠ Draw ∧ BlackWon ≠ WhiteWon.
Proof.
  pose proof outcomes_distinct as H.
  rewrite !NoDup_cons, !not_elem_of_cons in H.
  destruct_and!. repeat split; congruence.
Qed.

(** The switch of [isGameOver], case by case. *)
Lemma isGameOver_run (w : World) (l : positive) (g : Game) :
  heap w !! l = Some g →
  isGameOver (Some l) w
  = if decide (GameOutcome g = NoOutcome) then Ok false w
    else if decide (GameOutcome g = Draw)
    then Ok true (printed (over_line "Game Draw" g) w)
    else if decide (GameOutcome g = WhiteWon)
    then Ok true (printed (over_line "White Won" g) w)
    else if decide (GameOutcome g = BlackWon)
    then Ok true (printed (over_line "Black Won" g) w)
    else Panicked (PanicOutcome (GameOutcome g)).
Proof.
  intros Hg. unfold isGameOver.
  step ltac:(apply game_Outcome_run; exact Hg).
  repeat case_decide; try reflexivity.
  - step ltac:(apply game_Method_run; exact Hg). reflexivity.
  - step ltac:(apply game_Method_run; exact Hg). reflexivity.
  - step ltac:(apply game_Method_run; exact Hg). reflexivity.
  - step ltac:(apply game_Outcome_run; exact Hg). reflexivity.
Qed.

(** C5. Outcome reporter: [isGameOver] returns false and prints nothing for
    an undecided game; prints "Game Draw (method)", "White Won (method)" or
    "Black Won (method)" and returns true for a draw or a win; and panics
    with the outcome when it is none of the four. *)
Theorem isGameOver_outcome (w : World) (l : positive) (g : Game) :
  heap w !! l = Some g →
  (GameOutcome g = NoOutcome → isGameOver (Some l) w = Ok false w) ∧
  (GameOutcome g = Draw →
     isGameOver (Some l) w = Ok true (printed (over_line "Game Draw" g) w)) ∧
  (GameOutcome g = WhiteWon →
     isGameOver (Some l) w = Ok true (printed (over_line "White Won" g) w)) ∧
  (GameOutcome g = BlackWon →
     isGameOver (Some l) w = Ok true (printed (over_line "Black Won" g) w)) ∧
  (GameOutcome g ∉ [NoOutcome; Draw; WhiteWon; BlackWon] →
     isGameOver (Some l) w = Panicked (PanicOutcome (GameOutcome g))).
Proof.
  intros Hg. rewrite (isGameOver_run _ _ _ Hg).
  destruct outcomes_ne as (? & ? & ? & ? & ? & ?).
  repeat split; intros E; repeat case_decide; try congruence; try reflexivity;
    rewrite !not_elem_of_cons in E; destruct_and!; congruence.
Qed.

(** C6. Outcome reporter, twice: for an outcome of the four, a second call
    right after the first returns the same boolean and prints the same lines,
    and neither call changes a record; for any other outcome the call
    panics. *)
Theorem isGameOver_idempotent (w : World) (l : positive) (g : Game) :
  heap w !! l = Some g →
  (∃ b out w1 w2,
     isGameOver (Some l) w = Ok b w1 ∧
     console w1 = (console w ++ out)%list ∧ heap w1 = heap w ∧
     isGameOver (Some l) w1 = Ok b w2 ∧
     console w2 = (console w1 ++ out)%list ∧ heap w2 = heap w)
  ∨ ((GameOutcome g ∉ [NoOutcome; Draw; WhiteWon; BlackWon]) ∧
     isGameOver (Some l) w = Panicked (PanicOutcome (GameOutcome g))).
Proof.
  intros Hg. rewrite (isGameOver_run _ _ _ Hg).
  assert (∀ line, heap (printed line w) !! l = Some g) as Hp by done.
  repeat case_decide.
  - left. exists false, [], w, w. rewrite (isGameOver_run _ _ _ Hg).
    rewrite decide_True by done. by rewrite !app_nil_r.
  - left. eexists true, [_], _, _. split; [reflexivity|].
    rewrite (isGameOver_run _ _ _ (Hp _)).
    rewrite decide_False, decide_True by done. done.
  - left. eexists true, [_], _, _. split; [reflexivity|].
    rewrite (isGameOver_run _ _ _ (Hp _)).
    rewrite decide_False, decide_False, decide_True by done. done.
  - left. eexists true, [_], _, _. split; [reflexivity|].
    rewrite (isGameOver_run _ _ _ (Hp _)).
    rewrite decide_False, decide_False, decide_False, decide_True by done. done.
  - right. split; [|reflexivity].
    rewrite !not_elem_of_cons. repeat split; try done. apply not_elem_of_nil.
Qed.

End Reporter.

Lemma isGameOver_outcome_witness :
  isGameOver (chess := Mini.chess) (aurora := Mini.plain) (Some 1%positive)
    (Mini.world Mini.fools_mate false "stockfish")
  = Ok true (printed "Black Won (Checkmate)"
               (Mini.world Mini.fools_mate false "stockfish"))
  ∧ isGameOver (chess := Mini.chess) (aurora := Mini.plain) (Some 1%positive)
      (Mini.world Mini.broken_game false "stockfish")
    = Panicked (PanicOutcome (chess := Mini.chess) "?").
Proof.
  split.
  - apply (isGameOver_outcome (chess := Mini.chess) (aurora := Mini.plain)
             (Mini.world Mini.fools_mate false "stockfish") 1%positive
             Mini.fools_mate ltac:(vm_compute; reflexivity)).
    reflexivity.
  - apply (isGameOver_outcome (chess := Mini.chess) (aurora := Mini.plain)
             (Mini.world Mini.broken_game false "stockfish") 1%positive
             Mini.broken_game ltac:(vm_compute; reflexivity)).
    cbn. rewrite !not_elem_of_cons. repeat split; try discriminate.
    apply not_elem_of_nil.
Defined.

Lemma isGameOver_idempotent_witness :
  ∃ w1 w2,
    isGameOver (chess := Mini.chess) (aurora := Mini.plain) (Some 1%positive)
      (Mini.world Mini.fools_mate false "stockfish") = Ok true w1 ∧
    console w1 = ["Black Won (Checkmate)"] ∧
    isGameOver (aurora := Mini.plain) (Some 1%positive) w1 = Ok true w2 ∧
    console w2 = ["Black Won (Checkmate)"; "Black Won (Checkmate)"] ∧
    heap w2 = heap (Mini.world Mini.fools_mate false "stockfish").
Proof.
  destruct (isGameOver_idempotent (chess := Mini.chess) (aurora := Mini.plain)
              (Mini.world Mini.fools_mate false "stockfish") 1%positive
              Mini.fools_mate ltac:(vm_compute; reflexivity))
    as [(b & out & w1 & w2 & E1 & Hc1 & Hh1 & E2 & Hc2 & Hh2)|[_ E]].
  - assert (isGameOver (chess := Mini.chess) (aurora := Mini.plain)
              (Some 1%positive) (Mini.world Mini.fools_mate false "stockfish")
            = Ok true (printed "Black Won (Checkmate)"
                         (Mini.world Mini.fools_mate false "stockfish"))) as E.
    { vm_compute. reflexivity. }
    rewrite E in E1. injection E1 as <- <-.
    apply (app_inv_head []) in Hc1. subst out.
    exists (printed "Black Won (Checkmate)"
              (Mini.world Mini.fools_mate false "stockfish")), w2.
    split; [exact E|]. split; [reflexivity|]. split; [exact E2|].
    split; [rewrite Hc2; reflexivity|exact Hh2].
  - vm_compute in E. discriminate.
Defined.

(** ** The move advisory *)

Section Advisory.
Context {chess : Chess} {aurora : Aurora}.

(** The loop of the completion closure collects the encoded moves in order. *)
Lemma fold_left_collect {A} (f : A → string) (l : list A) (acc : list string) :
  fold_left (λ moves move, (moves ++ [f move])%list) l acc
  = (acc ++ map f l)%list.
Proof.
  revert acc. induction l as [|a l IH]; intros acc; cbn.
  - by rewrite app_nil_r.
  - by rewrite IH, <- app_assoc.
Qed.


Lemma validMoves_run (w : World) (l : positive) (g : Game) :
  heap w !! l = Some g →
  validMoves (Some l) w
  = Ok (fold_left
          (λ moves move, moves +:+ " " +:+ EncodeAlgebraic (GamePosition g) move)
          (legal_moves g) "") w.
Proof.
  intros Hg. unfold validMoves.
  step ltac:(apply game_Position_run; exact Hg). reflexivity.
Qed.


End Advisory.



(** * Further properties of the code *)

(** ** Tag lookup *)

Section TagLookup.
Context {chess : Chess} {aurora : Aurora}.

(** X1. [GetTagPair] never fails and changes nothing: for a nil game or a
    key the record has no tag for it answers the empty string, and the tag's
    value otherwise. *)
Theorem GetTagPair_absent_is_empty (w : World) (l : positive) (g : Game)
    (key : string) :
  heap w !! l = Some g →
  GetTagPair None key w = Ok "" w ∧
  ∃ v, GetTagPair (Some l) key w = Ok v w ∧
       (GameGetTagPair g key = None → v = "") ∧
       (∀ tp, GameGetTagPair g key = Some tp → v = Value tp).
Proof.
  intros Hg. split; [reflexivity|].
  exists (tagValue g key). split; [by apply GetTagPair_run|].
  unfold tagValue. split.
  - by intros ->.
  - by intros tp ->.
Qed.

End TagLookup.

Lemma GetTagPair_absent_is_empty_witness :
  GetTagPair (chess := Mini.chess) None "White"
    (Mini.world Mini.unassigned false "stockfish")
  = Ok "" (Mini.world Mini.unassigned false "stockfish") ∧
  GetTagPair (chess := Mini.chess) (Some 1%positive) "White"
    (Mini.world Mini.unassigned false "stockfish")
  = Ok "" (Mini.world Mini.unassigned false "stockfish") ∧
  GetTagPair (chess := Mini.chess) (Some 1%positive) "Black"
    (Mini.world Mini.unassigned false "stockfish")
  = Ok "stockfish" (Mini.world Mini.unassigned false "stockfish").
Proof.
  destruct (GetTagPair_absent_is_empty (chess := Mini.chess)
              (Mini.world Mini.unassigned false "stockfish") 1%positive
              Mini.unassigned "White" ltac:(vm_compute; reflexivity))
    as (Hnil & v & Hv & Hnone & _).
  destruct (GetTagPair_absent_is_empty (chess := Mini.chess)
              (Mini.world Mini.unassigned false "stockfish") 1%positive
              Mini.unassigned "Black" ltac:(vm_compute; reflexivity))
    as (_ & v' & Hv' & _ & Hsome).
  rewrite (Hnone eq_refl) in Hv.
  rewrite (Hsome {| Key := "Black"; Value := "stockfish" |} eq_refl) in Hv'.
  split; [exact Hnil|]. split; [exact Hv|exact Hv'].
Defined.

(** ** More on the loader *)

Section LoaderCases.
Context {chess : Chess} {aurora : Aurora}.

(** The four ways through [loadPGN]. *)
Lemma loadPGN_cases (w : World) (filename : string) :
  (files w !! filename = None ∧
   loadPGN filename w = Ok None (printed (unreadable_line filename) w))
  ∨ (∃ dat, files w !! filename = Some dat ∧ PGN dat = None ∧
       loadPGN filename w = Ok None (printed (invalid_line filename) w))
  ∨ (∃ dat pgn, files w !! filename = Some dat ∧ PGN dat = Some pgn ∧
       NewGame pgn = None ∧
       loadPGN filename w = Ok None (printed (uninitialised_line filename) w))
  ∨ (∃ dat pgn g, files w !! filename = Some dat ∧ PGN dat = Some pgn ∧
       NewGame pgn = Some g ∧
       loadPGN filename w
       = let l := fresh (dom (heap w)) in
         let w1 := with_heap (<[l := g]> (heap w)) w in
         if decide (tagValue g "Annotator" ≠ "pinata" ∨ tagValue g "White" = ""
                    ∨ tagValue g "Black" = "")
         then Ok None (printed (rejection_line filename) w1)
         else if decide (tagValue g "Black" = "Human")
         then Ok (Some l)
                (printed (resume_line "Black" (tagValue g "White"))
                   (with_session true (tagValue g "White") w1))
         else Ok (Some l)
                (printed (resume_line "White" (tagValue g "Black"))
                   (with_session false (tagValue g "Black") w1))).
Proof.
  destruct (files w !! filename) as [dat|] eqn:Hf;
    [|left; split; [done|by apply loadPGN_unreadable]].
  right. destruct (PGN dat) as [pgn|] eqn:Hp.
  2:{ left. exists dat. repeat split; try done. unfold loadPGN.
      step ltac:(unfold ReadFile; rewrite Hf; reflexivity). by rewrite Hp. }
  right. destruct (NewGame pgn) as [g|] eqn:Hn.
  2:{ left. exists dat, pgn. repeat split; try done. unfold loadPGN.
      step ltac:(unfold ReadFile; rewrite Hf; reflexivity). rewrite Hp.
      step ltac:(unfold alloc_NewGame; rewrite Hn; reflexivity). reflexivity. }
  right. exists dat, pgn, g. repeat split; try done.
  exact (loadPGN_parsed _ _ _ _ _ Hf Hp Hn).
Qed.

Lemma accepted_iff (g : Game) :
  accepted g
  ↔ ¬ (tagValue g "Annotator" ≠ "pinata" ∨ tagValue g "White" = ""
       ∨ tagValue g "Black" = "").
Proof.
  unfold accepted. split.
  - intros (Ha & Hw & Hb) [?|[?|?]]; done.
  - intros H. repeat split.
    + destruct (decide (tagValue g "Annotator" = "pinata")); [done|].
      exfalso. apply H. by left.
    + intros E. apply H. right. by left.
    + intros E. apply H. right. by right.
Qed.

(** X2. [loadPGN] never panics, whatever the file holds; it prints exactly
    one line, leaves the files and [gGame] as they are, and keeps every
    record that exists. *)
Theorem loadPGN_total_one_line (w : World) (filename : string) :
  ∃ r w' line,
    loadPGN filename w = Ok r w' ∧
    console w' = (console w ++ [line])%list ∧
    files w' = files w ∧ gGame w' = gGame w ∧ heap w ⊆ heap w'.
Proof.
  destruct (loadPGN_cases w filename)
    as [[_ E]|[(dat & _ & _ & E)|[(dat & pgn & _ & _ & _ & E)
       |(dat & pgn & g & _ & _ & _ & E)]]]; rewrite E.
  - eexists _, _, _. split; [reflexivity|]. done.
  - eexists _, _, _. split; [reflexivity|]. done.
  - eexists _, _, _. split; [reflexivity|]. done.
  - cbv zeta. repeat case_decide;
      (eexists _, _, _; split; [reflexivity|]; world_simpl;
       repeat split; apply heap_fresh_subseteq).
Qed.

(** X3. A load that returns nil leaves the session as it was:
    [gHumanIsBlack] and [gEngineBinary] keep their values, and the line
    printed is one of the four failure lines. *)
Theorem loadPGN_failure_keeps_session (w w' : World) (filename : string) :
  loadPGN filename w = Ok None w' →
  gHumanIsBlack w' = gHumanIsBlack w ∧ gEngineBinary w' = gEngineBinary w ∧
  ∃ line,
    line ∈ [unreadable_line filename; invalid_line filename;
            uninitialised_line filename; rejection_line filename] ∧
    console w' = (console w ++ [line])%list.
Proof.
  intros Hload.
  destruct (loadPGN_cases w filename)
    as [[_ E]|[(dat & _ & _ & E)|[(dat & pgn & _ & _ & _ & E)
       |(dat & pgn & g & _ & _ & _ & E)]]]; rewrite E in Hload.
  - injection Hload as <-. repeat split. eexists. split; [|reflexivity].
    rewrite !elem_of_cons. auto.
  - injection Hload as <-. repeat split. eexists. split; [|reflexivity].
    rewrite !elem_of_cons. auto.
  - injection Hload as <-. repeat split. eexists. split; [|reflexivity].
    rewrite !elem_of_cons. auto.
  - cbv zeta in Hload. repeat case_decide; try done.
    injection Hload as <-. repeat split. eexists. split; [|reflexivity].
    rewrite !elem_of_cons. auto.
Qed.

(** X4. A load that returns a game returns a new record, at an address no
    record had, beside the records that exist; the record passed the gate,
    the engine name it leaves is not empty, and the line printed names the
    side and the engine of the session it leaves. *)
Theorem loadPGN_success_report (w w' : World) (filename : string)
    (l : positive) :
  loadPGN filename w = Ok (Some l) w' →
  heap w !! l = None ∧
  ∃ g, heap w' = <[l := g]> (heap w) ∧ accepted g ∧
       gEngineBinary w' ≠ "" ∧
       console w'
       = (console w
          ++ [resume_line (if gHumanIsBlack w' then "Black" else "White")
                (gEngineBinary w')])%list.
Proof.
  intros Hload.
  destruct (loadPGN_cases w filename)
    as [[_ E]|[(dat & _ & _ & E)|[(dat & pgn & _ & _ & _ & E)
       |(dat & pgn & g & _ & _ & _ & E)]]]; rewrite E in Hload; try done.
  cbv zeta in Hload.
  destruct (decide (_ ∨ _)) as [|Hacc]; [done|].
  apply accepted_iff in Hacc. pose proof Hacc as (_ & Hw & Hb).
  destruct (decide (tagValue g "Black" = "Human"));
    injection Hload as <- <-; world_simpl;
    (split; [apply not_elem_of_dom, is_fresh|]); by exists g.
Qed.

(** X5. [loadPGN] returns a game exactly for a file that can be read, parses,
    seeds a game and passes the gate: Annotator ["pinata"], White and Black
    not empty. *)
Theorem loadPGN_accepts_iff (w : World) (filename : string) :
  (∃ l w', loadPGN filename w = Ok (Some l) w')
  ↔ ∃ dat pgn g, files w !! filename = Some dat ∧ PGN dat = Some pgn ∧
                 NewGame pgn = Some g ∧ accepted g.
Proof.
  split.
  - intros (l & w' & Hload).
    destruct (loadPGN_cases w filename)
      as [[_ E]|[(dat & _ & _ & E)|[(dat & pgn & _ & _ & _ & E)
         |(dat & pgn & g & Hf & Hp & Hn & E)]]]; rewrite E in Hload; try done.
    cbv zeta in Hload. destruct (decide (_ ∨ _)) as [|Hacc]; [done|].
    exists dat, pgn, g. repeat split; try done; by apply accepted_iff in Hacc as (? & ? & ?).
  - intros (dat & pgn & g & Hf & Hp & Hn & Hacc).
    rewrite (loadPGN_parsed _ _ _ _ _ Hf Hp Hn).
    rewrite decide_False by (by apply accepted_iff).
    case_decide; eauto.
Qed.

(** X6. After a load that returns a game, [humanColor] is Black exactly when
    the record's Black tag is ["Human"], and White otherwise; it changes
    nothing. *)
Theorem humanColor_after_load (w w' : World) (filename : string)
    (l : positive) :
  loadPGN filename w = Ok (Some l) w' →
  ∃ g, heap w' !! l = Some g ∧
       humanColor w'
       = Ok (if decide (tagValue g "Black" = "Human") then Black else White) w'.
Proof.
  intros Hload.
  destruct (loadPGN_accepted_inv _ _ _ _ Hload) as (g & Hg & _ & Hb & _).
  exists g. split; [done|]. rewrite humanColor_run, Hb.
  by case_decide; [rewrite bool_decide_eq_true_2|rewrite bool_decide_eq_false_2].
Qed.

End LoaderCases.

Lemma loadPGN_failure_keeps_session_witness :
  ∃ w', loadPGN (chess := Mini.chess) (aurora := Mini.plain) "bad.pgn"
          (with_files {[ "bad.pgn" := "[broken" ]}
             (Mini.world Mini.fresh_game true "gnuchess")) = Ok None w' ∧
        gHumanIsBlack w' = true ∧ gEngineBinary w' = "gnuchess" ∧
        console w' = ["bad.pgn is not a valid PGN file."].
Proof.
  assert (∃ w', loadPGN (chess := Mini.chess) (aurora := Mini.plain) "bad.pgn"
            (with_files {[ "bad.pgn" := "[broken" ]}
               (Mini.world Mini.fresh_game true "gnuchess")) = Ok None w' ∧
          console w' = ["bad.pgn is not a valid PGN file."]) as (w' & E & Hc).
  { eexists. split; vm_compute; reflexivity. }
  destruct (loadPGN_failure_keeps_session _ _ _ E) as (Hb & He & _).
  exists w'. split; [exact E|]. split; [exact Hb|]. split; [exact He|exact Hc].
Defined.

Lemma loadPGN_success_report_witness :
  ∃ l w', loadPGN (chess := Mini.chess) (aurora := Mini.plain) "game.pgn"
            (Mini.world_with_file "game.pgn" Mini.saved_game) = Ok (Some l) w' ∧
          heap (Mini.world_with_file "game.pgn" Mini.saved_game) !! l = None ∧
          gEngineBinary w' ≠ "" ∧
          console w' = ["You are playing White against stockfish."].
Proof.
  assert (∃ l w', loadPGN (chess := Mini.chess) (aurora := Mini.plain) "game.pgn"
            (Mini.world_with_file "game.pgn" Mini.saved_game) = Ok (Some l) w' ∧
          console w' = ["You are playing White against stockfish."])
    as (l & w' & E & Hc).
  { eexists _, _. split; vm_compute; reflexivity. }
  destruct (loadPGN_success_report _ _ _ _ E) as (Hfresh & g & _ & _ & Hne & _).
  exists l, w'. split; [exact E|]. split; [exact Hfresh|]. split; [exact Hne|exact Hc].
Defined.

Lemma humanColor_after_load_witness :
  ∃ l w', loadPGN (chess := Mini.chess) (aurora := Mini.plain) "game.pgn"
            (Mini.world_with_file "game.pgn" Mini.saved_game) = Ok (Some l) w' ∧
          humanColor w' = Ok White w'.
Proof.
  assert (∃ l w', loadPGN (chess := Mini.chess) (aurora := Mini.plain) "game.pgn"
            (Mini.world_with_file "game.pgn" Mini.saved_game) = Ok (Some l) w' ∧
          heap w' !! l = Some Mini.saved_game) as (l & w' & E & Hl).
  { eexists _, _. split; vm_compute; reflexivity. }
  destruct (humanColor_after_load _ _ _ _ E) as (g & Hg & Hc).
  pose proof (eq_trans (eq_sym Hg) Hl) as Heq. injection Heq as ->.
  exists l, w'. split; [exact E|]. exact Hc.
Defined.

(** ** More on the saver *)

Section SaverFrame.
Context {chess : Chess} {aurora : Aurora}.

(** Every tag of the record [savePGN] leaves. *)
Lemma saved_record_tagValue (w : World) (g : Game) (k : string) :
  tag_store_law →
  tagValue (saved_record w g) k
  = if decide (k = "Black")
    then (if gHumanIsBlack w then "Human" else gEngineBinary w)
    else if decide (k = "White")
    then (if gHumanIsBlack w then gEngineBinary w else "Human")
    else if decide (k = "Result")
    then OutcomeString
           (GameOutcome
              (GameAddTagPair (GameAddTagPair g "Annotator" "pinata") "Date"
                 (Sprintf_date (clock w))))
    else if decide (k = "Date") then Sprintf_date (clock w)
    else if decide (k = "Annotator") then "pinata"
    else tagValue g k.
Proof.
  intros Hlaw. unfold saved_record, tagValue.
  destruct (gHumanIsBlack w); rewrite !Hlaw; repeat case_decide; done.
Qed.

(** X7. [savePGN] on a live record never panics, and touches only what it is
    given: the other files, the other records, the session globals and
    [gGame] are as before; a save that returns nil prints nothing, a failing
    one prints one line. *)
Theorem savePGN_frame (w : World) (l : positive) (g : Game) (filename : string) :
  heap w !! l = Some g →
  ∃ r w', savePGN (Some l) filename w = Ok r w' ∧
    (∀ p, p ≠ filename → files w' !! p = files w !! p) ∧
    (∀ l', l' ≠ l → heap w' !! l' = heap w !! l') ∧
    gHumanIsBlack w' = gHumanIsBlack w ∧ gEngineBinary w' = gEngineBinary w ∧
    gGame w' = gGame w ∧
    (r = None → console w' = console w) ∧
    (is_Some r → ∃ line, console w' = (console w ++ [line])%list).
Proof.
  intros Hg. destruct (creatable w filename) eqn:Hc.
  - rewrite (savePGN_created _ _ _ _ Hc Hg).
    destruct (write_fault w filename); eexists _, _;
      (split; [reflexivity|]); world_simpl; repeat split;
      try (by intros; rewrite lookup_insert_ne);
      try done; try (by intros [? ?]); eauto.
  - rewrite (savePGN_uncreatable _ _ _ Hc). eexists _, _.
    split; [reflexivity|]. world_simpl. repeat split; try done. eauto.
Qed.

(** X8. Once the file is created, [savePGN] rewrites the five tags it owns
    and no other: every other tag of the record keeps its value, whether the
    write then succeeds or fails. *)
Theorem savePGN_keeps_other_tags (w : World) (l : positive) (g : Game)
    (filename : string) :
  tag_store_law → heap w !! l = Some g → creatable w filename = true →
  ∃ r w' g', savePGN (Some l) filename w = Ok r w' ∧
    heap w' !! l = Some g' ∧
    ∀ k, k ∉ saver_keys → tagValue g' k = tagValue g k.
Proof.
  intros Hlaw Hg Hc. rewrite (savePGN_created _ _ _ _ Hc Hg).
  assert (∀ k, k ∉ saver_keys →
            tagValue (saved_record w g) k = tagValue g k) as Hkeep.
  { intros k Hk. unfold saver_keys in Hk.
    rewrite !not_elem_of_cons in Hk. destruct_and!.
    rewrite (saved_record_tagValue _ _ _ Hlaw). by repeat case_decide. }
  destruct (write_fault w filename); eexists _, _, (saved_record w g);
    (split; [reflexivity|]); world_simpl;
    (split; [apply lookup_insert_eq|exact Hkeep]).
Qed.

(** X9. Saving again, at any later reading of the clock, changes no tag but
    Date: after two successful saves, to the same path or another, every
    other tag of the record has the value the first save left, and Date is
    the date of the second save. *)
Theorem savePGN_again_keeps_tags (w w1 w2 : World) (l : positive) (g : Game)
    (path1 path2 : string) (t : Time) :
  tag_store_law → tags_keep_outcome → heap w !! l = Some g →
  savePGN (Some l) path1 w = Ok None w1 →
  savePGN (Some l) path2 (with_clock t w1) = Ok None w2 →
  ∃ g1 g2, heap w1 !! l = Some g1 ∧ heap w2 !! l = Some g2 ∧
           (∀ k, k ≠ "Date" → tagValue g2 k = tagValue g1 k) ∧
           tagValue g2 "Date" = Sprintf_date t.
Proof.
  intros Hlaw Hout Hg Hs1 Hs2.
  rewrite (savePGN_nil_inv _ _ _ _ _ Hg Hs1) in Hs2 |- *.
  set (w1' := with_clock t _) in *.
  assert (heap w1' !! l = Some (saved_record w g)) as Hg1
    by apply lookup_insert_eq.
  rewrite (savePGN_nil_inv _ _ _ _ _ Hg1 Hs2).
  exists (saved_record w g), (saved_record w1' (saved_record w g)).
  split; [apply lookup_insert_eq|]. split; [apply lookup_insert_eq|].
  assert (GameOutcome (saved_record w g) = GameOutcome g) as Ho.
  { unfold saved_record. destruct (gHumanIsBlack w); by rewrite !Hout. }
  split.
  - intros k Hk. rewrite !(saved_record_tagValue _ _ _ Hlaw).
    subst w1'. world_simpl. rewrite !Hout, Ho.
    by repeat case_decide.
  - rewrite (saved_record_tagValue _ _ _ Hlaw). by repeat case_decide.
Qed.

(** X10. A failing write leaves a damaged file: the path was truncated when
    it was created, so what it held before is gone, and it holds only the
    bytes written before the error; [savePGN] prints the failure and returns
    the error. *)
Theorem savePGN_write_failure_report (w : World) (l : positive) (g : Game)
    (filename : string) (n : nat) :
  heap w !! l = Some g → creatable w filename = true →
  write_fault w filename = Some n →
  ∃ err w' g', savePGN (Some l) filename w = Ok (Some err) w' ∧
    heap w' !! l = Some g' ∧
    files w' !! filename = Some (substring 0 n (GameString g' +:+ newline)) ∧
    console w' = (console w ++ [write_failure_line filename])%list.
Proof.
  intros Hg Hc Hn. rewrite (savePGN_created _ _ _ _ Hc Hg), Hn.
  eexists _, _, (saved_record w g). split; [reflexivity|]. world_simpl.
  by rewrite !lookup_insert_eq.
Qed.

(** X11. Load, then save: when the loaded record has ["Human"] in its White
    or its Black tag, a successful save right after the load writes back the
    White, Black and Annotator values the file had. *)
Theorem loadPGN_savePGN_player_tags (w w1 w2 : World) (filename path : string)
    (l : positive) (g : Game) :
  tag_store_law →
  loadPGN filename w = Ok (Some l) w1 → heap w1 !! l = Some g →
  tagValue g "White" = "Human" ∨ tagValue g "Black" = "Human" →
  savePGN (Some l) path w1 = Ok None w2 →
  ∃ g', heap w2 !! l = Some g' ∧
        tagValue g' "White" = tagValue g "White" ∧
        tagValue g' "Black" = tagValue g "Black" ∧
        tagValue g' "Annotator" = tagValue g "Annotator".
Proof.
  intros Hlaw Hload Hg Hhuman Hsave.
  destruct (loadPGN_accepted_inv _ _ _ _ Hload)
    as (g0 & Hg0 & (Ha & _ & _) & Hb & He).
  pose proof (eq_trans (eq_sym Hg0) Hg) as Heq. injection Heq as ->.
  rewrite (savePGN_nil_inv _ _ _ _ _ Hg Hsave). world_simpl.
  exists (saved_record w1 g). split; [apply lookup_insert_eq|].
  destruct (saved_record_session_tags w1 g Hlaw) as (Ha' & Hw' & Hb').
  rewrite Ha', Hw', Hb', Hb, He, Ha.
  destruct (decide (tagValue g "Black" = "Human")) as [E|E].
  - rewrite bool_decide_eq_true_2 by done. by rewrite E.
  - rewrite bool_decide_eq_false_2 by done.
    destruct Hhuman as [Hw|?]; [by rewrite Hw|done].
Qed.

End SaverFrame.

Lemma savePGN_frame_witness :
  ∃ r w', savePGN (chess := Mini.chess) (aurora := Mini.plain) (Some 1%positive)
            "/full/game.pgn" (Mini.world Mini.fools_mate false "stockfish")
          = Ok r w' ∧
    files w' !! "other.pgn" = None ∧ gHumanIsBlack w' = false ∧
    gEngineBinary w' = "stockfish" ∧ gGame w' = Some 1%positive.
Proof.
  destruct (savePGN_frame (chess := Mini.chess) (aurora := Mini.plain)
              (Mini.world Mini.fools_mate false "stockfish") 1%positive
              Mini.fools_mate "/full/game.pgn" ltac:(vm_compute; reflexivity))
    as (r & w' & E & Hfiles & _ & Hb & He & Hgame & _).
  exists r, w'. split; [exact E|].
  split; [exact (Hfiles "other.pgn" ltac:(discriminate))|].
  split; [exact Hb|]. split; [exact He|exact Hgame].
Defined.

Lemma savePGN_keeps_other_tags_witness :
  ∃ r w' g', savePGN (chess := Mini.chess) (aurora := Mini.plain)
               (Some 1%positive) "game.pgn"
               (Mini.world Mini.fools_mate false "stockfish") = Ok r w' ∧
    heap w' !! 1%positive = Some g' ∧ tagValue g' "Event" = "Casual game".
Proof.
  destruct (savePGN_keeps_other_tags (chess := Mini.chess) (aurora := Mini.plain)
              (Mini.world Mini.fools_mate false "stockfish") 1%positive
              Mini.fools_mate "game.pgn" Mini_tag_store
              ltac:(vm_compute; reflexivity) ltac:(vm_compute; reflexivity))
    as (r & w' & g' & E & Hg' & Hkeep).
  exists r, w', g'. split; [exact E|]. split; [exact Hg'|].
  apply (Hkeep "Event"). unfold saver_keys.
  rewrite !not_elem_of_cons. repeat split; try discriminate.
  apply not_elem_of_nil.
Defined.

Lemma savePGN_again_keeps_tags_witness :
  ∃ w1 w2 g1 g2,
    savePGN (chess := Mini.chess) (aurora := Mini.plain) (Some 1%positive)
      "game.pgn" (Mini.world Mini.fools_mate true "stockfish") = Ok None w1 ∧
    savePGN (aurora := Mini.plain) (Some 1%positive) "copy.pgn"
      (with_clock {| Year := 2020; Month := 7; Day := 5 |} w1) = Ok None w2 ∧
    heap w1 !! 1%positive = Some g1 ∧ heap w2 !! 1%positive = Some g2 ∧
    tagValue g2 "Black" = tagValue g1 "Black" ∧
    tagValue g1 "Date" = "2020-07-04" ∧ tagValue g2 "Date" = "2020-07-05".
Proof.
  assert (∃ w1 w2,
    savePGN (chess := Mini.chess) (aurora := Mini.plain) (Some 1%positive)
      "game.pgn" (Mini.world Mini.fools_mate true "stockfish") = Ok None w1 ∧
    savePGN (aurora := Mini.plain) (Some 1%positive) "copy.pgn"
      (with_clock {| Year := 2020; Month := 7; Day := 5 |} w1) = Ok None w2 ∧
    ∃ g1, heap w1 !! 1%positive = Some g1 ∧ tagValue g1 "Date" = "2020-07-04")
    as (w1 & w2 & E1 & E2 & g1' & Hg1' & Hd1).
  { eexists _, _. split; [vm_compute; reflexivity|].
    split; [vm_compute; reflexivity|].
    eexists. split; vm_compute; reflexivity. }
  destruct (savePGN_again_keeps_tags (chess := Mini.chess) (aurora := Mini.plain)
              (Mini.world Mini.fools_mate true "stockfish") w1 w2 1%positive
              Mini.fools_mate "game.pgn" "copy.pgn"
              {| Year := 2020; Month := 7; Day := 5 |}
              Mini_tag_store Mini_tags_keep_outcome
              ltac:(vm_compute; reflexivity) E1 E2)
    as (g1 & g2 & Hg1 & Hg2 & Hsame & Hd2).
  pose proof (eq_trans (eq_sym Hg1) Hg1') as Heq. injection Heq as ->.
  exists w1, w2, g1', g2. split; [exact E1|]. split; [exact E2|].
  split; [exact Hg1|]. split; [exact Hg2|].
  split; [by apply Hsame|]. split; [exact Hd1|exact Hd2].
Defined.

Lemma savePGN_write_failure_report_witness :
  ∃ err w', savePGN (chess := Mini.chess) (aurora := Mini.plain)
              (Some 1%positive) "/full/game.pgn"
              (with_files {[ "/full/game.pgn" := "an earlier save" ]}
                 (Mini.world Mini.fools_mate false "stockfish"))
            = Ok (Some err) w' ∧
    files w' !! "/full/game.pgn" = Some "[Ev" ∧
    console w' = ["Unable to save the game to /full/game.pgn"].
Proof.
  destruct (savePGN_write_failure_report
              (chess := Mini.chess) (aurora := Mini.plain)
              (with_files {[ "/full/game.pgn" := "an earlier save" ]}
                 (Mini.world Mini.fools_mate false "stockfish"))
              1%positive Mini.fools_mate "/full/game.pgn" 3%nat
              ltac:(vm_compute; reflexivity) ltac:(vm_compute; reflexivity)
              ltac:(vm_compute; reflexivity))
    as (err & w' & g' & E & Hg' & Hf & Hc).
  assert (∃ w'' , savePGN (chess := Mini.chess) (aurora := Mini.plain)
              (Some 1%positive) "/full/game.pgn"
              (with_files {[ "/full/game.pgn" := "an earlier save" ]}
                 (Mini.world Mini.fools_mate false "stockfish"))
            = Ok (Some (PathError "write" "/full/game.pgn")) w'' ∧
          files w'' !! "/full/game.pgn" = Some "[Ev") as (w'' & E' & Hf').
  { eexists. split; vm_compute; reflexivity. }
  rewrite E in E'. injection E' as -> ->.
  exists (PathError "write" "/full/game.pgn"), w''.
  split; [exact E|]. split; [exact Hf'|exact Hc].
Defined.

Lemma loadPGN_savePGN_player_tags_witness :
  ∃ l w1 w2 g',
    loadPGN (chess := Mini.chess) (aurora := Mini.plain) "game.pgn"
      (Mini.world_with_file "game.pgn" Mini.saved_game) = Ok (Some l) w1 ∧
    savePGN (aurora := Mini.plain) (Some l) "copy.pgn" w1 = Ok None w2 ∧
    heap w2 !! l = Some g' ∧
    tagValue g' "White" = "Human" ∧ tagValue g' "Black" = "stockfish".
Proof.
  assert (∃ l w1 w2,
    loadPGN (chess := Mini.chess) (aurora := Mini.plain) "game.pgn"
      (Mini.world_with_file "game.pgn" Mini.saved_game) = Ok (Some l) w1 ∧
    heap w1 !! l = Some Mini.saved_game ∧
    savePGN (aurora := Mini.plain) (Some l) "copy.pgn" w1 = Ok None w2)
    as (l & w1 & w2 & E1 & Hl & E2).
  { eexists _, _, _. split; [vm_compute; reflexivity|].
    split; [vm_compute; reflexivity|]. vm_compute. reflexivity. }
  destruct (loadPGN_savePGN_player_tags (chess := Mini.chess)
              (aurora := Mini.plain) _ w1 w2 "game.pgn" "copy.pgn" l
              Mini.saved_game Mini_tag_store E1 Hl
              ltac:(left; vm_compute; reflexivity) E2)
    as (g' & Hg' & Hw & Hb & _).
  exists l, w1, w2, g'. split; [exact E1|]. split; [exact E2|].
  split; [exact Hg'|]. split; [exact Hw|exact Hb].
Defined.

(** ** The date written by the saver *)

Lemma digit_inj (a b : Z) :
  (0 ≤ a < 10)%Z → (0 ≤ b < 10)%Z → digit a = digit b → a = b.
Proof.
  intros Ha Hb E. unfold digit in E.
  apply (f_equal nat_of_ascii) in E.
  rewrite !nat_ascii_embedding in E by lia. lia.
Qed.

(** X12. The Date value tells the day: two dates of the four-digit years
    that [savePGN] formats to the same string are the same date. *)
Theorem Sprintf_date_injective (t1 t2 : Time) :
  civil_date t1 → civil_date t2 →
  Sprintf_date t1 = Sprintf_date t2 → t1 = t2.
Proof.
  intros H1 H2 E.
  rewrite (Sprintf_date_civil _ H1), (Sprintf_date_civil _ H2) in E.
  destruct H1 as (Hy1 & Hm1 & Hd1), H2 as (Hy2 & Hm2 & Hd2).
  destruct t1 as [y1 m1 d1], t2 as [y2 m2 d2].
  unfold YYYY_MM_DD in E. cbn [Year Month Day] in *.
  injection E as E1 E2 E3 E4 E5 E6 E7 E8.
  apply digit_inj in E1, E2, E3, E4, E5, E6, E7, E8; try lia_div.
  f_equal; lia_div.
Qed.

Lemma Sprintf_date_injective_witness :
  {| Year := 2020; Month := 7; Day := 4 |}
  = {| Year := 2000 + 20; Month := 14 - 7; Day := 2 + 2 |}.
Proof.
  apply Sprintf_date_injective.
  - unfold civil_date; cbn; lia.
  - unfold civil_date; cbn; lia.
  - vm_compute; reflexivity.
Defined.

(** ** More on the move advisory *)

Lemma string_app_assoc (a b c : string) : (a +:+ b) +:+ c = a +:+ (b +:+ c).
Proof.
  induction a as [|x a IH]; [reflexivity|].
  change (String x ((a +:+ b) +:+ c) = String x (a +:+ (b +:+ c))).
  by f_equal.
Qed.

Lemma string_app_empty_r (a : string) : a +:+ "" = a.
Proof.
  induction a as [|x a IH]; [reflexivity|].
  change (String x (a +:+ "") = String x a). by f_equal.
Qed.

Section AdvisoryAgreement.
Context {chess : Chess} {aurora : Aurora}.

(** The loop of [validMoves] puts a space before each move. *)
Lemma fold_left_join {A} (f : A → string) (l : list A) (acc : string) :
  fold_left (λ moves move, moves +:+ " " +:+ f move) l acc
  = acc +:+ String.concat "" (map (λ move, " " +:+ f move) l).
Proof.
  revert acc. induction l as [|a l IH]; intros acc.
  - cbn [fold_left map String.concat]. by rewrite string_app_empty_r.
  - cbn [fold_left map]. rewrite IH, string_app_assoc. f_equal.
    destruct l as [|b l]; [|reflexivity].
    cbn [map String.concat]. by rewrite string_app_empty_r.
Qed.

(** X13. The two advisories agree: the string of [validMoves] is the list of
    the completion closure with a space before each move, in the same
    order; the closure gives that list whatever line was typed, one entry
    per legal move. *)
Theorem validMoves_agrees_with_completion (w0 w : World) (l : positive)
    (g : Game) :
  heap w !! l = Some g → gGame w = Some l →
  ∃ (complete : string → M (list string)) (ms : list string) (s : string),
    validMovesConstructor w0 = Ok complete w0 ∧
    (∀ line, complete line w = Ok ms w) ∧
    validMoves (Some l) w = Ok s w ∧
    s = String.concat "" (map (λ m, " " +:+ m) ms) ∧
    length ms = length (legal_moves g).
Proof.
  intros Hg Hgame.
  eexists _, (map (EncodeAlgebraic (GamePosition g)) (legal_moves g)), _.
  split; [reflexivity|]. split.
  { intros line. cbv beta.
    step ltac:(unfold get_gGame; rewrite Hgame; reflexivity).
    step ltac:(apply game_Position_run; exact Hg).
    unfold mret, M_ret. by rewrite fold_left_collect. }
  split; [apply (validMoves_run _ _ _ Hg)|].
  split; [|by rewrite length_map].
  rewrite fold_left_join, map_map. reflexivity.
Qed.

End AdvisoryAgreement.

Lemma validMoves_agrees_with_completion_witness :
  ∃ complete,
    validMovesConstructor (chess := Mini.chess)
      (Mini.world Mini.fools_mate false "stockfish")
    = Ok complete (Mini.world Mini.fools_mate false "stockfish") ∧
    complete "e" (Mini.world Mini.fresh_game false "stockfish")
    = Ok ["e4"; "d4"] (Mini.world Mini.fresh_game false "stockfish") ∧
    validMoves (chess := Mini.chess) (Some 1%positive)
      (Mini.world Mini.fresh_game false "stockfish")
    = Ok " e4 d4" (Mini.world Mini.fresh_game false "stockfish").
Proof.
  destruct (validMoves_agrees_with_completion (chess := Mini.chess)
              (Mini.world Mini.fools_mate false "stockfish")
              (Mini.world Mini.fresh_game false "stockfish")
              1%positive Mini.fresh_game
              ltac:(vm_compute; reflexivity) ltac:(reflexivity))
    as (complete & ms & s & Hc & Hms & Hs & Hjoin & _).
  assert (validMoves (chess := Mini.chess) (Some 1%positive)
            (Mini.world Mini.fresh_game false "stockfish")
          = Ok " e4 d4" (Mini.world Mini.fresh_game false "stockfish")) as Hs'
    by (vm_compute; reflexivity).
  exists complete. split; [exact Hc|]. split; [|exact Hs'].
  unfold validMovesConstructor in Hc. injection Hc as <-.
  vm_compute. reflexivity.
Defined.
